(** * Formatron: data-type validation and the ref algebra

    A shallow embedding of the base data type ([DataType], [ImmutableDataType])
    and of the refs of [src/refs.js] ([ImmutableRef], [ImmutableViewRef],
    [ImmutableListRef] and its find / filter / map subclasses), followed by the
    properties of the specification that concern them. *)

From Stdlib Require Import ZArith DecimalString Ascii.
From Equations Require Import Equations.
From stdpp Require Import base option list strings.

Local Open Scope string_scope.
Local Open Scope list_scope.

(** ** JavaScript values *)

Module Js.

(** The values that flow through the modelled code.

    - [VNum] carries the integer-valued numbers (list indexes, sizes, counts)
      and [VNaN] is [NaN]; fractions and the infinities are not represented;
    - [VOpaque id str] is an object the code never looks into (a function such
      as a [validator] option, a class instance, an object built with a null
      prototype): [id] stands for its reference, [str] is what its [toString]
      method returns, [None] when it has no such method.  It has no [size]
      and none of the collection methods ([get], [set], [map], [findIndex]);
    - [VArray] is a plain JavaScript array, [VList] an [Immutable.List] and
      [VMap] an [Immutable.Map] with string keys, held as its entries in
      iteration order;
    - [VNativeMap] is a native [Map] with string keys, held as its entries in
      insertion order: an object that has [size], [get] and [set] without
      being a persistent container, and whose [set] changes it in place.

    Which object an array or a container is, is not part of the value: two
    objects with the same contents are the same value.  Where the code asks
    whether two objects are the same one, the answer is taken from outside
    (see [strict_eq]). *)
#[warnings="-register-all"]
Inductive value : Type :=
| VUndefined
| VNull
| VBool (b : bool)
| VNum (n : Z)
| VStr (s : string)
| VOpaque (id : nat) (str : option string)
| VArray (items : list value)
| VList (items : list value)
| VMap (entries : list (string * value))
| VNaN
| VNativeMap (entries : list (string * value)).

(** Induction principle that reaches the values nested in the containers. *)
Section value_ind.
Variable P : value → Prop.
Hypothesis Hundef : P VUndefined.
Hypothesis Hnull : P VNull.
Hypothesis Hbool : ∀ b, P (VBool b).
Hypothesis Hnum : ∀ n, P (VNum n).
Hypothesis Hstr : ∀ s, P (VStr s).
Hypothesis Hopaque : ∀ id str, P (VOpaque id str).
Hypothesis Harray : ∀ l, Forall P l → P (VArray l).
Hypothesis Hlist : ∀ l, Forall P l → P (VList l).
Hypothesis Hmap : ∀ m, Forall (λ kv, P kv.2) m → P (VMap m).
Hypothesis Hnan : P VNaN.
Hypothesis Hnative : ∀ m, Forall (λ kv, P kv.2) m → P (VNativeMap m).

Fixpoint value_nested_ind (v : value) : P v :=
    match v with
    | VUndefined => Hundef
    | VNull => Hnull
    | VBool b => Hbool b
    | VNum n => Hnum n
    | VStr s => Hstr s
    | VOpaque id str => Hopaque id str
    | VArray l =>
        Harray l ((fix go (l : list value) : Forall P l :=
                     match l with
                     | [] => Forall_nil_2 P
                     | x :: l' => Forall_cons_2 P x l' (value_nested_ind x) (go l')
                     end) l)
    | VList l =>
        Hlist l ((fix go (l : list value) : Forall P l :=
                    match l with
                    | [] => Forall_nil_2 P
                    | x :: l' => Forall_cons_2 P x l' (value_nested_ind x) (go l')
                    end) l)
    | VMap m =>
        Hmap m ((fix go (m : list (string * value)) : Forall (λ kv, P kv.2) m :=
                   match m with
                   | [] => Forall_nil_2 _
                   | kv :: m' =>
                       Forall_cons_2 (λ kv, P kv.2) kv m' (value_nested_ind kv.2) (go m')
                   end) m)
    | VNaN => Hnan
    | VNativeMap m =>
        Hnative m ((fix go (m : list (string * value)) : Forall (λ kv, P kv.2) m :=
                      match m with
                      | [] => Forall_nil_2 _
                      | kv :: m' =>
                          Forall_cons_2 (λ kv, P kv.2) kv m' (value_nested_ind kv.2) (go m')
                      end) m)
    end.
End value_ind.

(** [!v], [if (v)], [v && ...]: the falsy values are [undefined], [null],
    [false], [0], [NaN] and the empty string. *)
Definition truthy (v : value) : bool :=
  match v with
  | VUndefined | VNull | VNaN => false
  | VBool b => b
  | VNum n => negb (n =? 0)%Z
  | VStr s => negb (String.eqb s "")
  | VOpaque _ _ | VArray _ | VList _ | VMap _ | VNativeMap _ => true
  end.

(** [typeof v == 'undefined'] *)
Definition is_undefined (v : value) : bool :=
  match v with VUndefined => true | _ => false end.

(** [v === null] *)
Definition is_null (v : value) : bool :=
  match v with VNull => true | _ => false end.

(** Two values with the same contents. *)
Fixpoint same_content (a b : value) : bool :=
  let fix items (xs ys : list value) : bool :=
    match xs, ys with
    | [], [] => true
    | x :: xs', y :: ys' => same_content x y && items xs' ys'
    | _, _ => false
    end in
  let fix entries (xs ys : list (string * value)) : bool :=
    match xs, ys with
    | [], [] => true
    | (k, x) :: xs', (k', y) :: ys' =>
        String.eqb k k' && same_content x y && entries xs' ys'
    | _, _ => false
    end in
  match a, b with
  | VUndefined, VUndefined => true
  | VNull, VNull => true
  | VBool x, VBool y => Bool.eqb x y
  | VNum x, VNum y => (x =? y)%Z
  | VStr x, VStr y => String.eqb x y
  | VOpaque i _, VOpaque j _ => Nat.eqb i j
  | VArray xs, VArray ys => items xs ys
  | VList xs, VList ys => items xs ys
  | VMap xs, VMap ys => entries xs ys
  | VNaN, VNaN => true
  | VNativeMap xs, VNativeMap ys => entries xs ys
  | _, _ => false
  end.

(** [a === b].  Primitives are compared by value, and [NaN] is equal to
    nothing, itself included.  Objects are compared by reference: opaque
    objects carry theirs; for two arrays or two containers of one kind,
    [same_object a b] says whether the two operands are one object, which
    their contents do not tell. *)
Definition strict_eq (same_object : value → value → bool) (a b : value) : bool :=
  match a, b with
  | VUndefined, VUndefined => true
  | VNull, VNull => true
  | VBool x, VBool y => Bool.eqb x y
  | VNum x, VNum y => (x =? y)%Z
  | VStr x, VStr y => String.eqb x y
  | VOpaque i _, VOpaque j _ => Nat.eqb i j
  | VArray _, VArray _ => same_object a b
  | VList _, VList _ => same_object a b
  | VMap _, VMap _ => same_object a b
  | VNativeMap _, VNativeMap _ => same_object a b
  | _, _ => false
  end.

(** [Immutable.isImmutable(v)] *)
Definition isImmutable (v : value) : bool :=
  match v with VList _ | VMap _ => true | _ => false end.

(** [List.isList(v)] *)
Definition isList (v : value) : bool :=
  match v with VList _ => true | _ => false end.

(** [v.size > 0]: the persistent containers and the native map have a
    [size]; on the other values the property is [undefined] and the
    comparison is false. *)
Definition size_positive (v : value) : bool :=
  match v with
  | VList l => negb (Nat.eqb (length l) 0)
  | VMap m => negb (Nat.eqb (length m) 0)
  | VNativeMap m => negb (Nat.eqb (length m) 0)
  | _ => false
  end.

(** [n.toString()] for a safe integer, which prints as its decimal
    numeral. *)
Definition number_toString (n : Z) : string :=
  NilZero.string_of_int (Z.to_int n).

(** [Number.isSafeInteger(n)]: below [2^53] in size.  A larger number is
    printed from the digits of its floating-point form, and with an exponent
    from [10^21]. *)
Definition prints_digits (n : Z) : bool := (Z.abs n <? 2 ^ 53)%Z.

End Js.
Export Js.

(** ** The persistent containers *)

Module Immutable.

(** [map.get(key, notSetValue)] *)
Fixpoint map_get (m : list (string * value)) (key : string) (notSet : value) : value :=
  match m with
  | [] => notSet
  | (k, v) :: m' => if String.eqb k key then v else map_get m' key notSet
  end.

(** [map.has(key)] *)
Fixpoint map_has (m : list (string * value)) (key : string) : bool :=
  match m with
  | [] => false
  | (k, _) :: m' => String.eqb k key || map_has m' key
  end.

(** [map.set(key, v)]: a new map; the entry of [key] is replaced where it is,
    a new key is added. *)
Fixpoint map_set (m : list (string * value)) (key : string) (v : value)
  : list (string * value) :=
  match m with
  | [] => [(key, v)]
  | (k, x) :: m' =>
      if String.eqb k key then (k, v) :: m' else (k, x) :: map_set m' key v
  end.

(** [wrapIndex(list, index)] for an [index] that is not a number: the index
    is [index >>> 0] when that number prints back as [index] and is not
    [2^32 - 1], and [NaN] ([None]) otherwise.  A string that prints back is a
    plain decimal numeral, so any other string is [NaN] at once. *)
Definition wrapIndex (index : string) : option nat :=
  match NilEmpty.uint_of_string index with
  | Some u =>
      let uint32Index := (N.of_uint u mod 4294967296)%N in
      if negb (String.eqb (NilZero.string_of_uint (N.to_uint uint32Index)) index)
         || (uint32Index =? 4294967295)%N
      then None
      else Some (N.to_nat uint32Index)
  | None => None
  end.

(** [list.get(index, notSetValue)] at a wrapped index. *)
Definition list_get_at (l : list value) (index : nat) (notSet : value) : value :=
  match l !! index with
  | Some v => v
  | None => notSet
  end.

(** [list.set(index, v)] at a wrapped index: within the bounds the item is
    replaced; beyond them the list grows to [index + 1], the new positions
    before [index] reading [undefined]. *)
Definition list_set_at (l : list value) (index : nat) (v : value) : list value :=
  if decide (index < length l) then <[index := v]> l
  else l ++ replicate (index - length l) VUndefined ++ [v].

(** [list.get(key)] and [list.set(key, v)] with a string key.  Both wrap the
    key first; on [NaN], [get] returns [notSetValue] and [set] ([updateList])
    returns the list it was called on. *)
Definition list_get (l : list value) (key : string) (notSet : value) : value :=
  match wrapIndex key with
  | Some i => list_get_at l i notSet
  | None => notSet
  end.

Definition list_set (l : list value) (key : string) (v : value) : list value :=
  match wrapIndex key with
  | Some i => list_set_at l i v
  | None => l
  end.

(** [list.push(v)] *)
Definition list_push (l : list value) (v : value) : list value := l ++ [v].

End Immutable.
Export Immutable.

(** ** Outcomes and observable effects

    A call of the modelled code returns a value or throws; on its way it may
    warn on the console, hand list items to the view evaluator, and change an
    object it was given in place.  These are recorded, in order, so that
    "before any predicate evaluation", "left to right" and "the original is
    unchanged" are statements about the record. *)

Module Effects.

Inductive exn : Type :=
| Error (msg : string)
| TypeError (msg : string).

Inductive outcome (A : Type) : Type :=
| Return (a : A)
| Throw (e : exn).
Arguments Return {A} a.
Arguments Throw {A} e.

Inductive event : Type :=
| Warn (msg : string)
| ApplyView (item : value)
| Mutate (target : value).

Definition M (A : Type) : Type := list event * outcome A.

#[global] Instance M_ret : MRet M := λ A a, ([], Return a).

#[global] Instance M_bind : MBind M := λ A B k m,
  match m with
  | (log, Return a) => let '(log', r) := k a in (log ++ log', r)
  | (log, Throw e) => (log, Throw e)
  end.

#[global] Instance M_fmap : FMap M := λ A B f m,
  match m with
  | (log, Return a) => (log, Return (f a))
  | (log, Throw e) => (log, Throw e)
  end.

Definition throw {A} (e : exn) : M A := ([], Throw e).

Definition tell (e : event) : M unit := ([e], Return tt).

Definition events {A} (m : M A) : list event := m.1.

Definition result {A} (m : M A) : outcome A := m.2.

(** The objects that were changed in place. *)
Definition mutated (log : list event) : list value :=
  omap (λ e, match e with Mutate target => Some target | _ => None end) log.

End Effects.
Export Effects.

(** ** Data types *)

Module Types.

(** The option set of a data type instance: [this.options], the
    [Immutable.Map] built by the constructor.  Its values are what
    [Immutable.fromJS] made of the ones passed: an array passed as an option
    is held as a new [Immutable.List]. *)
Abbreviation Options := (list (string * value)).

(** Modelled from the spec: the list-shaped data type [Types.data.list],
    whose class is not among the sources.  [ListOf name options itemType] is
    an instance of it: a composite data type (an [ImmutableDataType]) that
    owns the data type of its items, which [getItemType()] returns.
    [Scalar name options] is an instance of the class [DataType] of the
    sources. *)
Inductive DataType : Type :=
| Scalar (name : string) (options : Options)
| ListOf (name : string) (options : Options) (itemType : DataType).

Definition getName (this : DataType) : string :=
  match this with Scalar n _ | ListOf n _ _ => n end.

Definition options (this : DataType) : Options :=
  match this with Scalar _ o | ListOf _ o _ => o end.

(** The instance with another option set. *)
Definition with_options (this : DataType) (o : Options) : DataType :=
  match this with
  | Scalar n _ => Scalar n o
  | ListOf n _ it => ListOf n o it
  end.

(** [dataType instanceof Types.data.list] for a data type object. *)
Definition isListType (this : DataType) : bool :=
  match this with ListOf _ _ _ => true | Scalar _ _ => false end.

(** [listType.getItemType()]; [None] when the object has no such method and
    the call is a [TypeError]. *)
Definition getItemType (this : DataType) : option DataType :=
  match this with ListOf _ _ it => Some it | Scalar _ _ => None end.

(** The catalog [validationErrors]: the entry the base type uses. *)
Definition validationErrors_required : string := "This field is required".

(** Modelled from the spec: the class [ValidationError], which is not among
    the sources.  [new ValidationError(message, type, value)] is a single rule
    failure: a message of the catalog, the offending data type and the
    offending value. *)
Record ValidationError : Type := mkValidationError {
  message : string;
  field : DataType;
  offending : value
}.

Definition isRequired (this : DataType) : value :=
  map_get (options this) "required" (VBool false).

Definition isUnique (this : DataType) : value :=
  map_get (options this) "unique" (VBool false).

Definition isGenerated (this : DataType) : value :=
  map_get (options this) "generated" (VBool false).

Definition isExcluded (this : DataType) : value :=
  map_get (options this) "excluded" (VBool false).

(** [getDefaultValue(defaultValue = null)]: the parameter takes its default
    when the argument is [undefined], which is also how a call without
    argument is written here. *)
Definition getDefaultValue (this : DataType) (defaultValue : value) : value :=
  let defaultValue := if is_undefined defaultValue then VNull else defaultValue in
  let optionsDefaultValue := map_get (options this) "defaultValue" VUndefined in
  if is_undefined optionsDefaultValue then defaultValue else optionsDefaultValue.

(** [getValidator()]: the [validator] option, or a function that returns
    [undefined]; the latter is the opaque object [noValidator]. *)
Definition noValidator : value := VOpaque 0 (Some "() => undefined").

Definition getValidator (this : DataType) : value :=
  map_get (options this) "validator" noValidator.

Section Validation.

(** Whether the two operands of a [===] are one object, when they are two
    arrays or two containers of one kind. *)
Variable same_object : value → value → bool.

(** [DataType.prototype.hasValue(value, checkDefault)] *)
Definition DataType_hasValue (this : DataType) (v : value) (checkDefault : bool) : bool :=
  if is_undefined v || is_null v
     || (strict_eq same_object v (getDefaultValue this VUndefined) && checkDefault)
  then false
  else true.

(** [ImmutableDataType.prototype.hasValue(value, checkDefault)] *)
Definition ImmutableDataType_hasValue (this : DataType) (v : value) (checkDefault : bool)
  : bool :=
  if negb (DataType_hasValue this v checkDefault) then false
  else truthy v && size_positive v.

(** [this.hasValue(value, checkDefault)], by the class of [this]. *)
Definition hasValue (this : DataType) (v : value) (checkDefault : bool) : bool :=
  match this with
  | Scalar _ _ => DataType_hasValue this v checkDefault
  | ListOf _ _ _ => ImmutableDataType_hasValue this v checkDefault
  end.

(** [array.find(predicate)] *)
Fixpoint array_find (predicate : value → bool) (values : list value) : value :=
  match values with
  | [] => VUndefined
  | v :: values' => if predicate v then v else array_find predicate values'
  end.

(** [DataType.prototype.getValue(value, defaultValue)] *)
Definition DataType_getValue (this : DataType) (v defaultValue : value) : value :=
  let values :=
    if truthy (isGenerated this) then [v]
    else [v; getDefaultValue this defaultValue] in
  array_find (λ v, negb (is_undefined v)) values.

(** [this.getValue(value)] with the one argument, as [getDisplay] and
    [validate] call it.  On a composite this is
    [ImmutableDataType.prototype.getValue(value, ref, renderOptions)] with no
    [ref], which returns [super.getValue(value)]. *)
Definition getValue (this : DataType) (v : value) : value :=
  match this with
  | Scalar _ _ => DataType_getValue this v VUndefined
  | ListOf _ _ _ => DataType_getValue this v VUndefined
  end.

(** [exclude(model)] *)
Definition exclude (this : DataType) (model : value) : value :=
  if truthy (isExcluded this) then VUndefined else model.

Section Display.

(** The string form that the [toString] method of an array, of a container or
    of a number that is not a safe integer gives: they are the platform's and
    the library's. *)
Variable objectString : value → string.

(** [v.toString] looked up on a value that is neither [undefined] nor [null],
    and called: [None] when there is no such method. *)
Definition toString (v : value) : option string :=
  match v with
  | VUndefined | VNull => None
  | VBool b => Some (if b then "true" else "false")
  | VNum n => Some (if prints_digits n then number_toString n else objectString v)
  | VNaN => Some "NaN"
  | VStr s => Some s
  | VOpaque _ str => str
  | VArray _ | VList _ | VMap _ | VNativeMap _ => Some (objectString v)
  end.

(** [getDisplay(value)] *)
Definition getDisplay (this : DataType) (v : value) : string :=
  let v := getValue this v in
  match truthy v, toString v with
  | true, Some s => s
  | _, _ => ""
  end.

End Display.

(** Where [validate] returns. *)
Inductive validate_exit : Type :=
| AtDefault                                 (* value equals the default and is a value *)
| AbsentGenerated                           (* absent, [generated] *)
| AbsentRequired (e : ValidationError)      (* absent, [required] *)
| AbsentOptional                            (* absent, neither *)
| FromCallback (r : option ValidationError) (* [return callback()] *)
| AtEnd.                                    (* falls off the end *)

(** [validate(value, callback)], as the return statement it reaches.
    [callback] is [None] when the argument is omitted. An error or nothing is
    what a callback returns. *)
Definition validate_exits (this : DataType) (v : value)
    (callback : option (unit → option ValidationError)) : validate_exit :=
  let v := getValue this v in
  if strict_eq same_object v (getDefaultValue this VUndefined) && hasValue this v false then
    AtDefault
  else if negb (hasValue this v false) then
    if truthy (isGenerated this) then AbsentGenerated
    else if truthy (isRequired this) then
      AbsentRequired (mkValidationError validationErrors_required this v)
    else AbsentOptional
  else
    match callback with
    | Some callback => FromCallback (callback ())
    | None => AtEnd
    end.

(** What each return statement returns: [None] is [undefined]. *)
Definition returned (x : validate_exit) : option ValidationError :=
  match x with
  | AtDefault | AbsentGenerated | AbsentOptional | AtEnd => None
  | AbsentRequired e => Some e
  | FromCallback r => r
  end.

Definition validate (this : DataType) (v : value)
    (callback : option (unit → option ValidationError)) : option ValidationError :=
  returned (validate_exits this v callback).

End Validation.

End Types.
Export Types.

(** ** Refs *)

Module Refs.

(** Modelled from the spec: the class [RenderData], which is not among the
    sources.  [new RenderData(dataType, dataValue, renderOptions)] is what the
    evaluator of a view is given: the owner type, the owner value and the
    options. *)
Record RenderData : Type := mkRenderData {
  dataType : DataType;
  dataValue : value;
  renderOptions : value
}.

(** The left operand of [instanceof]: [!dataType instanceof Types.data.list]
    parses as [(!dataType) instanceof Types.data.list], whose left operand is
    a boolean. *)
Inductive operand : Type :=
| OfBool (b : bool)
| OfType (t : DataType).

(** [x instanceof Types.data.list]: never true of a primitive. *)
Definition instanceof_list (x : operand) : bool :=
  match x with
  | OfBool _ => false
  | OfType t => isListType t
  end.

(** [listType.getItemType()] as a call. *)
Definition call_getItemType (listType : DataType) : M DataType :=
  match getItemType listType with
  | Some itemType => mret itemType
  | None => throw (TypeError "listType.getItemType is not a function")
  end.

(** The collection methods that take a callback.  The callback is run on the
    items from left to right, and its effects are recorded in that order. *)
Section Iteration.
Context {A : Type}.

(** [findEntry]: stops at the first item on which the predicate is truthy. *)
Fixpoint find_from (predicate : A → M value) (l : list A) (index : nat)
  : M (option (nat * A)) :=
  match l with
  | [] => mret None
  | item :: l' =>
      b ← predicate item;
      if truthy b then mret (Some (index, item))
      else find_from predicate l' (S index)
  end.

(** [filter] *)
Fixpoint filter_items (predicate : A → M value) (l : list A) : M (list A) :=
  match l with
  | [] => mret []
  | item :: l' =>
      b ← predicate item;
      rest ← filter_items predicate l';
      mret (if truthy b then item :: rest else rest)
  end.

(** [map] *)
Fixpoint map_items {B} (mapper : A → M B) (l : list A) : M (list B) :=
  match l with
  | [] => mret []
  | item :: l' =>
      y ← mapper item;
      rest ← map_items mapper l';
      mret (y :: rest)
  end.

End Iteration.

(** [list.findIndex(predicate)]: the index of the first match, or [-1]. *)
Definition findIndex (predicate : value → M value) (l : list value) : M Z :=
  found ← find_from predicate l 0;
  mret (match found with Some (index, _) => Z.of_nat index | None => (-1)%Z end).

(** [list.find(predicate)]: the first match, or [undefined]. *)
Definition find (predicate : value → M value) (l : list value) : M value :=
  found ← find_from predicate l 0;
  mret (match found with Some (_, item) => item | None => VUndefined end).

(** [indexes.includes(index)] *)
Definition includes {K} `{EqDecision K} (indexes : list K) (index : K) : bool :=
  bool_decide (index ∈ indexes).

Section Refs.

(** The view descriptors, and the evaluator of the renderers:
    [valueRenderers.getValue(view, renderData)].  Both are outside the
    sources. *)
Variable View : Type.
Variable valueRenderers_getValue : View → RenderData → value.

(** The ref classes.  [ref] is the key of a direct-key ref; the empty key is
    the identity ref. *)
Inductive Ref : Type :=
| ImmutableRef (ref : string)
| ImmutableViewRef (view : option View)
| ImmutableListRef (view : View)
| ImmutableListFindRef (view : View)
| ImmutableListFilterRef (view : View)
| ImmutableListMapRef (view : View).

Definition isListRef (this : Ref) : bool :=
  match this with
  | ImmutableRef _ | ImmutableViewRef _ => false
  | _ => true
  end.

Definition isSingleRef (this : Ref) : bool :=
  match this with
  | ImmutableListFilterRef _ | ImmutableListMapRef _ => false
  | _ => true
  end.

Definition isMultiRef (this : Ref) : bool := negb (isSingleRef this).

Definition isFinder (this : Ref) : bool :=
  match this with ImmutableListFindRef _ => true | _ => false end.

Definition isFilterer (this : Ref) : bool :=
  match this with ImmutableListFilterRef _ => true | _ => false end.

Definition isMapper (this : Ref) : bool :=
  match this with ImmutableListMapRef _ => true | _ => false end.

(** [this.constructor.method] *)
Inductive method_name : Type := find_method | filter_method | map_method.

Definition method (this : Ref) : option method_name :=
  match this with
  | ImmutableListFindRef _ => Some find_method
  | ImmutableListFilterRef _ => Some filter_method
  | ImmutableListMapRef _ => Some map_method
  | _ => None
  end.

(** [dataValue.get(key)] on a truthy value: the persistent containers and
    the native map answer, the other values have no [get] method. *)
Definition call_get (dataValue : value) (key : string) : M value :=
  match dataValue with
  | VMap m => mret (map_get m key VUndefined)
  | VList l => mret (list_get l key VUndefined)
  | VNativeMap m => mret (map_get m key VUndefined)
  | _ => throw (TypeError "dataValue.get is not a function")
  end.

(** [dataValue.set(key, childValue)], likewise.  A persistent container
    returns a new container; the native map changes and returns itself. *)
Definition call_set (dataValue : value) (key : string) (childValue : value) : M value :=
  match dataValue with
  | VMap m => mret (VMap (map_set m key childValue))
  | VList l => mret (VList (list_set l key childValue))
  | VNativeMap m =>
      tell (Mutate dataValue);;
      mret (VNativeMap (map_set m key childValue))
  | _ => throw (TypeError "dataValue.set is not a function")
  end.

(** [ImmutableRef.prototype.getValue] *)
Definition ImmutableRef_getValue (ref : string) (dataValue : value) : M value :=
  if negb (truthy dataValue) then mret VNull
  else if negb (truthy (VStr ref)) then mret dataValue
  else call_get dataValue ref.

(** [ImmutableRef.prototype.setValue] *)
Definition ImmutableRef_setValue (ref : string) (dataValue childValue : value) : M value :=
  if negb (truthy dataValue) then
    throw (Error "Cannot set value for on a null object")
  else if negb (truthy (VStr ref)) then mret dataValue
  else call_set dataValue ref childValue.

(** [ImmutableViewRef.prototype.getValue] *)
Definition ImmutableViewRef_getValue (view : option View)
    (dataType : DataType) (dataValue renderOptions : value) : M value :=
  if negb (truthy dataValue) then mret VNull
  else match view with
       | None => mret dataValue
       | Some view =>
           tell (ApplyView dataValue);;
           mret (valueRenderers_getValue view (mkRenderData dataType dataValue renderOptions))
       end.

(** [checkValidData(dataType, dataValue)].  In the first test [!dataType] is
    [false], a data type being an object, and it is that boolean which
    [instanceof] is asked about. *)
Definition checkValidData (dataType : DataType) (dataValue : value) : M unit :=
  (if instanceof_list (OfBool (negb true)) then
     throw (Error "Cannot reference a list with a non-list based data type")
   else mret ());;
  if negb (truthy dataValue) || negb (isImmutable dataValue) then
    throw (Error "Cannot reference a non-list with a list ref")
  else mret ().

(** [applyView(itemType, item, renderOptions)], and the same two lines where
    the [setValue] methods inline them. *)
Definition applyView (view : View) (itemType : DataType) (item renderOptions : value)
  : M value :=
  tell (ApplyView item);;
  mret (valueRenderers_getValue view (mkRenderData itemType item renderOptions)).

(** [list[method](callback)] on a persistent container. *)
Definition call_method (m : method_name) (list : value) (callback : value → M value)
  : M value :=
  match list, m with
  | VList l, find_method => find callback l
  | VList l, filter_method => VList <$> filter_items callback l
  | VList l, map_method => VList <$> map_items callback l
  | VMap es, find_method =>
      found ← find_from (λ kv : string * value, callback kv.2) es 0;
      mret (match found with Some (_, kv) => kv.2 | None => VUndefined end)
  | VMap es, filter_method =>
      VMap <$> filter_items (λ kv : string * value, callback kv.2) es
  | VMap es, map_method =>
      VMap <$> map_items (λ kv : string * value, y ← callback kv.2; mret (kv.1, y)) es
  | _, _ => throw (TypeError "list[method] is not a function")
  end.

(** [ImmutableListRef.prototype.getValue] *)
Definition ImmutableListRef_getValue (this : Ref) (view : View)
    (listType : DataType) (list renderOptions : value) : M value :=
  checkValidData listType list;;
  match method this with
  | None => mret list
  | Some m =>
      itemType ← call_getItemType listType;
      call_method m list (λ item, applyView view itemType item renderOptions)
  end.

(** [console.warn] of the [setValue] methods that write one item to many
    places. *)
Definition list_item_warning : string :=
  "Setting each list item to be a list. This may be due to using multiple list refs which is currently unimplemented".

Definition warn_list_item (newItem : value) : M unit :=
  if isList newItem then tell (Warn list_item_warning) else mret ().

(** [ImmutableViewRef.prototype.setValue] and
    [ImmutableListMapRef.prototype.setValue] *)
Definition not_yet_implemented : M value := throw (Error "Not yet implemented").

(** [ImmutableListRef.prototype.setValue]: [list.map(() => newItem)]. *)
Definition ImmutableListRef_setValue (list newItem : value) : M value :=
  warn_list_item newItem;;
  match list with
  | VList l => mret (VList ((λ _, newItem) <$> l))
  | VArray l => mret (VArray ((λ _, newItem) <$> l))
  | VMap es => mret (VMap ((λ kv : string * value, (kv.1, newItem)) <$> es))
  | VUndefined | VNull => throw (TypeError "Cannot read property 'map' of undefined or null")
  | _ => throw (TypeError "list.map is not a function")
  end.

(** [ImmutableListFindRef.prototype.setValue].  A plain array has
    [findIndex] and [push] but no [set]; its [push] grows the array it is
    called on and returns the new length.  An [Immutable.Map] has no
    [findIndex]. *)
Definition ImmutableListFindRef_setValue (view : View)
    (listType : DataType) (list newItem renderOptions : value) : M value :=
  itemType ← call_getItemType listType;
  let predicate := λ item,
    tell (ApplyView item);;
    mret (valueRenderers_getValue view (mkRenderData itemType item renderOptions)) in
  match list with
  | VList l =>
      index ← findIndex predicate l;
      if (0 <=? index)%Z then mret (VList (list_set_at l (Z.to_nat index) newItem))
      else mret (VList (list_push l newItem))
  | VArray l =>
      index ← findIndex predicate l;
      if (0 <=? index)%Z then throw (TypeError "list.set is not a function")
      else tell (Mutate list);; mret (VNum (Z.of_nat (length l) + 1))
  | VUndefined | VNull =>
      throw (TypeError "Cannot read property 'findIndex' of undefined or null")
  | _ => throw (TypeError "list.findIndex is not a function")
  end.

(** The indexes of the matching items:
    [list.map((item, index) => [index, item]).filter(([index, item]) => ...)
         .map(([index, item]) => index)]. *)
Definition matching_indexes {K} (predicate : value → M value) (pairs : list (K * value))
  : M (list K) :=
  matches ← filter_items (λ p : K * value, predicate p.2) pairs;
  mret (fst <$> matches).

(** [ImmutableListFilterRef.prototype.setValue].  On a keyed container the
    "index" of an item is its key. *)
Definition ImmutableListFilterRef_setValue (view : View)
    (listType : DataType) (list newItem renderOptions : value) : M value :=
  warn_list_item newItem;;
  itemType ← call_getItemType listType;
  let predicate := λ item,
    tell (ApplyView item);;
    mret (valueRenderers_getValue view (mkRenderData itemType item renderOptions)) in
  match list with
  | VList l =>
      indexes ← matching_indexes predicate (imap (λ index item, (index, item)) l);
      mret (VList (imap (λ index item,
                      if includes indexes index then newItem
                      else VNum (Z.of_nat index)) l))
  | VArray l =>
      indexes ← matching_indexes predicate (imap (λ index item, (index, item)) l);
      mret (VArray (imap (λ index item,
                       if includes indexes index then newItem
                       else VNum (Z.of_nat index)) l))
  | VMap es =>
      indexes ← matching_indexes predicate es;
      mret (VMap ((λ kv : string * value,
                     (kv.1, if includes indexes kv.1 then newItem else VStr kv.1)) <$> es))
  | VUndefined | VNull => throw (TypeError "Cannot read property 'map' of undefined or null")
  | _ => throw (TypeError "list.map is not a function")
  end.

(** [ref.getValue(dataType, dataValue, renderOptions)], by the class of the
    ref. *)
Definition getValue (this : Ref) (dataType : DataType) (dataValue renderOptions : value)
  : M value :=
  match this with
  | ImmutableRef ref => ImmutableRef_getValue ref dataValue
  | ImmutableViewRef view => ImmutableViewRef_getValue view dataType dataValue renderOptions
  | ImmutableListRef view
  | ImmutableListFindRef view
  | ImmutableListFilterRef view
  | ImmutableListMapRef view =>
      ImmutableListRef_getValue this view dataType dataValue renderOptions
  end.

(** [ref.setValue(dataType, dataValue, childValue, renderOptions)], by the
    class of the ref. *)
Definition setValue (this : Ref) (dataType : DataType)
    (dataValue childValue renderOptions : value) : M value :=
  match this with
  | ImmutableRef ref => ImmutableRef_setValue ref dataValue childValue
  | ImmutableViewRef _ => not_yet_implemented
  | ImmutableListRef _ => ImmutableListRef_setValue dataValue childValue
  | ImmutableListFindRef view =>
      ImmutableListFindRef_setValue view dataType dataValue childValue renderOptions
  | ImmutableListFilterRef view =>
      ImmutableListFilterRef_setValue view dataType dataValue childValue renderOptions
  | ImmutableListMapRef _ => not_yet_implemented
  end.

End Refs.

Arguments ImmutableRef {View} ref.
Arguments ImmutableViewRef {View} view.
Arguments ImmutableListRef {View} view.
Arguments ImmutableListFindRef {View} view.
Arguments ImmutableListFilterRef {View} view.
Arguments ImmutableListMapRef {View} view.
Arguments isListRef {View} this.
Arguments isSingleRef {View} this.
Arguments isMultiRef {View} this.
Arguments isFinder {View} this.
Arguments isFilterer {View} this.
Arguments isMapper {View} this.
Arguments method {View} this.
Arguments getValue {View} valueRenderers_getValue this dataType dataValue renderOptions.
Arguments setValue {View} valueRenderers_getValue this dataType dataValue childValue renderOptions.

End Refs.

(** * The vocabulary of the specification *)

Module Spec.

(** What the specification says of [getDisplay]: it returns the string form
    of the effective value, and the empty string only when the effective
    value is absent or has no string form. *)
Definition getDisplay_as_specified (objectString : value → string)
    (this : DataType) (v : value) : Prop :=
  let effective := Types.getValue this v in
  (∀ s, toString objectString effective = Some s → getDisplay objectString this v = s)
  ∧ (getDisplay objectString this v = "" →
     effective = VUndefined ∨ effective = VNull ∨ toString objectString effective = None).

(** What the specification says of the default short-circuit: for a data
    type whose [defaultValue] option is [X], validating the explicitly
    supplied [X] returns no error, and returns before the absence check and
    whatever callback is passed, provided [hasValue(X, false)] is true. *)
Definition default_short_circuit_as_specified (same_object : value → value → bool)
    (this : DataType) (X : value) : Prop :=
  map_get (options this) "defaultValue" VUndefined = X →
  hasValue same_object this X false = true →
  ∀ callback,
    validate_exits same_object this X callback = AtDefault
    ∧ validate same_object this X callback = None.

(** The error with another data type as its field. *)
Definition about (t : DataType) (e : ValidationError) : ValidationError :=
  mkValidationError (message e) t (offending e).

(** A key addresses an entry of a persistent container: any key does in a
    map; in a list the key has to be an index. *)
Definition addresses (container : value) (key : string) : Prop :=
  match container with
  | VMap _ => True
  | VList _ => is_Some (wrapIndex key)
  | _ => False
  end.

(** [found] is where the first item that satisfies [p] is: [Some i] when it
    is at index [i], [None] when no item satisfies [p]. *)
Definition first_match (p : value → bool) (l : list value) (found : option nat) : Prop :=
  match found with
  | Some i =>
      (∃ x, l !! i = Some x ∧ p x = true)
      ∧ ∀ j y, j < i → l !! j = Some y → p y = false
  | None => ∀ x, x ∈ l → p x = false
  end.

(** [l'] is [l] with [newItem] written at the first match: in its place when
    there is one, the size and every other item kept; at the end when there
    is none. *)
Definition upserted (l : list value) (newItem : value) (found : option nat)
    (l' : list value) : Prop :=
  match found with
  | Some i =>
      length l' = length l
      ∧ l' !! i = Some newItem
      ∧ ∀ j, j ≠ i → l' !! j = l !! j
  | None => l' = l ++ [newItem]
  end.

(** The items that the search for the first match looks at, in order. *)
Definition examined (l : list value) (found : option nat) : list value :=
  match found with
  | Some i => take (S i) l
  | None => l
  end.

Section WithEvaluator.
Context {View : Type}.
Variable valueRenderers_getValue : View → Refs.RenderData → value.

(** The view of a list ref, as a predicate on the items of a list whose
    items have type [itemType]. *)
Definition satisfies (view : View) (itemType : DataType) (renderOptions item : value)
  : bool :=
  truthy (valueRenderers_getValue view (Refs.mkRenderData itemType item renderOptions)).

(** The round trip through a direct-key ref: the write returns a new root
    and has no other effect, and the read of the same key in the new root
    returns the value written. *)
Definition round_trip (dataType : DataType) (renderOptions : value)
    (container : value) (key : string) (v : value) : Prop :=
  ∃ root,
    Refs.setValue valueRenderers_getValue (Refs.ImmutableRef key)
      dataType container v renderOptions
    = ([], Return root)
    ∧ Refs.getValue valueRenderers_getValue (Refs.ImmutableRef key)
        dataType root renderOptions
      = ([], Return v).

End WithEvaluator.

(** A view that is truthy on the items with the contents of [expected], and
    on no other. *)
Definition equals (expected : value) (view : unit) (renderData : Refs.RenderData) : value :=
  VBool (same_content (Refs.dataValue renderData) expected).

(** A view that no value needs: the refs that have none. *)
Definition no_view (view : unit) (renderData : Refs.RenderData) : value := VUndefined.

(** A list of scalar items. *)
Definition items : DataType := ListOf "items" [] (Scalar "item" []).

End Spec.
Export Spec.

(** * The rest of the refs and of the composite data type *)

(** ** The ref shorthand *)

Module Shorthand.

(** [s.split(separator)] with a one-character separator: the pieces between
    the separators, at least one. *)
Fixpoint split (separator : ascii) (s : string) : list string :=
  match s with
  | EmptyString => [""]
  | String c s' =>
      if Ascii.eqb c separator then "" :: split separator s'
      else match split separator s' with
           | piece :: pieces => String c piece :: pieces
           | [] => [String c ""]
           end
  end.

(** [const [ref, value] = refValue.split('=')]: the first piece, and the
    second when there is one ([undefined] otherwise). *)
Definition split_ref (refValue : string) : string :=
  default "" (split "="%char refValue !! 0).

Definition split_value (refValue : string) : option string :=
  split "="%char refValue !! 1.

(** A value inside a template literal. *)
Definition interpolate (v : option string) : string := default "undefined" v.

(** The double quote, as a string. *)
Definition quote : string := String "034"%char "".

Lemma split_ref_length (refValue : string) :
  (String.length (split_ref refValue) ≤ String.length refValue)%nat.
Proof.
  unfold split_ref. induction refValue as [ | c s IH ]; simpl; [done | ].
  destruct (Ascii.eqb c "="%char); simpl; [lia | ].
  destruct (split "="%char s) as [ | piece pieces ]; simpl in *; lia.
Qed.

Section Shorthand.
Context {View : Type}.

(** The view classes are outside the sources.  What [parseRef] needs of them
    is their constructors:
    [new Types.view.data({label, ref})],
    [new Types.view.value({value})] and
    [new Types.view.condition({label, op, args, trueType, falseType})];
    and, for the code [v], what a non-empty string is as a view. *)
Variable view_data : string → Refs.Ref View → View.
Variable view_value : value → View.
Variable view_condition : string → string → list View → View → View → View.
Variable view_named : string → View.

(** The body of [createTruthyViewType(refValue)], given the view that
    [createMappyViewType(ref)] returned. *)
Definition truthy_view (refValue : string) (mappy : View) : View :=
  let ref := split_ref refValue in
  let value := split_value refValue in
  view_condition (ref +:+ "=" +:+ interpolate value) "="
    [mappy; view_value (from_option VStr VUndefined value)]
    (view_value (VBool true)) (view_value (VBool false)).

(** [new ImmutableViewRef(refValue)] on a string: the empty string is a view
    that is not there. *)
Definition view_ref (refValue : string) : Refs.Ref View :=
  Refs.ImmutableViewRef
    (if String.eqb refValue "" then None else Some (view_named refValue)).

(** [parseRef(field)] on a string.  [field[1] == ':'] holds when the string
    has a second character and it is the colon; [field.slice(2)] is then
    what follows it.  [createMappyViewType] and [createTruthyViewType] are
    unfolded where they are called: the first parses the ref it is given, the
    second the piece of its argument before the first [=]. *)
Equations? parseString (field : string) : M (Refs.Ref View)
    by wf (String.length field) lt :=
  parseString (String refTypeCode (String c refValue)) with Ascii.eqb c ":"%char => {
    | true =>
        if Ascii.eqb refTypeCode "r"%char then
          mret (Refs.ImmutableRef refValue)
        else if Ascii.eqb refTypeCode "q"%char then
          ref ← parseString (split_ref refValue);
          mret (Refs.ImmutableListFindRef
                  (truthy_view refValue (view_data (split_ref refValue) ref)))
        else if Ascii.eqb refTypeCode "f"%char then
          ref ← parseString (split_ref refValue);
          mret (Refs.ImmutableListFilterRef
                  (truthy_view refValue (view_data (split_ref refValue) ref)))
        else if Ascii.eqb refTypeCode "m"%char then
          ref ← parseString refValue;
          mret (Refs.ImmutableListMapRef (view_data refValue ref))
        else if Ascii.eqb refTypeCode "v"%char then
          mret (view_ref refValue)
        else
          throw (Error ("Invalid hacky ref type: " +:+ quote
                        +:+ String refTypeCode (String c refValue) +:+ quote))
    | false => mret (Refs.ImmutableRef (String refTypeCode (String c refValue))) };
  parseString field := mret (Refs.ImmutableRef field).
Proof.
  all: pose proof (split_ref_length refValue); simpl; lia.
Qed.

(** What [parseRef] is given: a ref, nothing ([null] or [undefined]) or a
    string.  The structured descriptors, which go through
    [Types.parseField], are left out. *)
Inductive Field : Type :=
| FieldRef (r : Refs.Ref View)
| FieldAbsent
| FieldString (s : string).

(** [parseRef(field)]; [None] is [null]. *)
Definition parseRef (field : Field) : M (option (Refs.Ref View)) :=
  match field with
  | FieldRef r => mret (Some r)
  | FieldAbsent => mret None
  | FieldString s => Some <$> parseString s
  end.

End Shorthand.
End Shorthand.

(** ** Descent through a ref chain *)

Module Descent.
Section Descent.
Context {View : Type}.

(** The methods of the list-shaped data type that consume a ref chain are in
    its class, which is outside the sources. *)
Variable list_getField : DataType → list (Refs.Ref View) → value → M DataType.
Variable list_getFieldAndValue :
  DataType → value → list (Refs.Ref View) → value → M (DataType * value).
Variable list_setValue :
  DataType → value → list (Refs.Ref View) → value → value → M value.

(** [field.getField(refs, renderOptions)]: [DataType.prototype.getField]
    returns [this]. *)
Definition getField (this : DataType) (refs : list (Refs.Ref View)) (renderOptions : value)
  : M DataType :=
  match this with
  | Scalar _ _ => mret this
  | ListOf _ _ _ => list_getField this refs renderOptions
  end.

(** [field.getFieldAndValue(value, refs, renderOptions)]:
    [DataType.prototype.getFieldAndValue] returns
    [{field: this, value: this.getValue(value)}]. *)
Definition getFieldAndValue (this : DataType) (v : value) (refs : list (Refs.Ref View))
    (renderOptions : value) : M (DataType * value) :=
  match this with
  | Scalar _ _ => mret (this, Types.getValue this v)
  | ListOf _ _ _ => list_getFieldAndValue this v refs renderOptions
  end.

(** The message of [setNextValue] for an instance of the class [DataType],
    whose [constructor.name] is that name. *)
Definition cannot_call_setValue (field : DataType) : string :=
  "Cannot call " +:+ Shorthand.quote +:+ "setValue" +:+ Shorthand.quote
  +:+ " for " +:+ Shorthand.quote +:+ getName field +:+ Shorthand.quote
  +:+ " of data type " +:+ Shorthand.quote +:+ "DataType" +:+ Shorthand.quote.

(** [getNextField(field, refs, renderOptions)].  [field] is [None] when it is
    [null] or [undefined]; every data type has a [getField] method, and the
    message of the error that is thrown otherwise reads [field.name]. *)
Definition getNextField (field : option DataType) (refs : list (Refs.Ref View))
    (renderOptions : value) : M (option DataType) :=
  if Nat.eqb (length refs) 0 then mret field
  else match field with
       | Some field => Some <$> getField field refs renderOptions
       | None => throw (TypeError "Cannot read property 'name' of undefined or null")
       end.

(** [getNextFieldAndValue(field, value, refs, renderOptions)] *)
Definition getNextFieldAndValue (field : option DataType) (v : value)
    (refs : list (Refs.Ref View)) (renderOptions : value)
  : M (option DataType * value) :=
  if Nat.eqb (length refs) 0 then mret (field, v)
  else match field with
       | Some field =>
           (λ fv : DataType * value, (Some fv.1, fv.2))
             <$> getFieldAndValue field v refs renderOptions
       | None => throw (TypeError "Cannot read property 'name' of undefined or null")
       end.

(** [setNextValue(field, oldValue, newValue, refs, renderOptions)]: the class
    [DataType] has no [setValue] method. *)
Definition setNextValue (field : option DataType) (oldValue newValue : value)
    (refs : list (Refs.Ref View)) (renderOptions : value) : M value :=
  if Nat.eqb (length refs) 0 then mret newValue
  else match field with
       | Some (Scalar _ _ as field) => throw (Error (cannot_call_setValue field))
       | Some (ListOf _ _ _ as field) =>
           list_setValue field oldValue refs newValue renderOptions
       | None => throw (TypeError "Cannot read property 'setValue' of undefined or null")
       end.

End Descent.
End Descent.

(** ** Vocabulary of the further properties *)

(** A string without the separator of the shorthand, [=]. *)
Definition separator_free (s : string) : Prop :=
  ∀ i, String.get i s ≠ Some "="%char.

(** A call that changes nothing in place. *)
Definition in_place_free {A} (m : M A) : Prop := mutated (events m) = [].

(** * Properties *)

(** ** Values and containers *)

Lemma same_content_refl (v : value) : same_content v v = true.
Proof.
  induction v as [ | | b | n | s | id str | l IH | l IH | m IH | | m IH ]
    using value_nested_ind; simpl; try done.
  - by destruct b.
  - apply Z.eqb_refl.
  - apply String.eqb_refl.
  - apply Nat.eqb_refl.
  - induction IH as [ | x l Hx _ IHl ]; [done | by rewrite Hx, IHl ].
  - induction IH as [ | x l Hx _ IHl ]; [done | by rewrite Hx, IHl ].
  - induction IH as [ | [k x] l Hx _ IHl ]; [done | ].
    simpl in Hx. by rewrite String.eqb_refl, Hx, IHl.
  - induction IH as [ | [k x] l Hx _ IHl ]; [done | ].
    simpl in Hx. by rewrite String.eqb_refl, Hx, IHl.
Qed.

(** [NaN] is strictly equal to nothing, itself included. *)
Lemma strict_eq_NaN (same_object : value → value → bool) (v : value) :
  strict_eq same_object VNaN v = false ∧ strict_eq same_object v VNaN = false.
Proof. by destruct v. Qed.

Lemma map_get_set_eq (m : Options) (k : string) (v notSet : value) :
  map_get (map_set m k v) k notSet = v.
Proof.
  induction m as [ | [k' x] m IH ]; simpl.
  - by rewrite String.eqb_refl.
  - destruct (String.eqb k' k) eqn:E; simpl; rewrite E; [done | apply IH].
Qed.

Lemma map_get_set_ne (m : Options) (k k' : string) (v notSet : value) :
  k ≠ k' → map_get (map_set m k v) k' notSet = map_get m k' notSet.
Proof.
  intros Hne. induction m as [ | [k0 x] m IH ]; simpl.
  - destruct (String.eqb k k') eqn:E; [ | done ].
    apply String.eqb_eq in E. done.
  - destruct (String.eqb k0 k) eqn:E; simpl.
    + apply String.eqb_eq in E. subst k0.
      destruct (String.eqb k k') eqn:E'; [ | done ].
      apply String.eqb_eq in E'. done.
    + by rewrite IH.
Qed.

Lemma map_has_false_get (m : Options) (k : string) (notSet : value) :
  map_has m k = false → map_get m k notSet = notSet.
Proof.
  induction m as [ | [k' x] m IH ]; simpl; [done | ].
  destruct (String.eqb k' k); simpl; [done | apply IH].
Qed.

(** A wrapped index determines the key it came from. *)
Lemma wrapIndex_inj (k k' : string) (i : nat) :
  wrapIndex k = Some i → wrapIndex k' = Some i → k = k'.
Proof.
  unfold wrapIndex. intros H H'.
  destruct (NilEmpty.uint_of_string k) as [u | ]; [ | done ].
  destruct (NilEmpty.uint_of_string k') as [u' | ]; [ | done ].
  simpl in *.
  set (n := (N.of_uint u mod 4294967296)%N) in *.
  set (n' := (N.of_uint u' mod 4294967296)%N) in *.
  destruct (String.eqb _ k) eqn:E; simpl in H; [ | done ].
  destruct (String.eqb _ k') eqn:E'; simpl in H'; [ | done ].
  destruct (n =? 4294967295)%N; [done | ].
  destruct (n' =? 4294967295)%N; [done | ].
  apply String.eqb_eq in E, E'.
  assert (n = n') as Hn by (apply N2Nat.inj; congruence).
  congruence.
Qed.

Lemma list_get_set_at_eq (l : list value) (i : nat) (v notSet : value) :
  list_get_at (list_set_at l i v) i notSet = v.
Proof.
  unfold list_get_at, list_set_at. case_decide as Hi.
  - by rewrite list_lookup_insert_eq.
  - rewrite lookup_app_r by lia.
    rewrite lookup_app_r by (rewrite length_replicate; lia).
    rewrite length_replicate. by replace (i - length l - (i - length l)) with 0 by lia.
Qed.

Lemma list_get_set_at_ne (l : list value) (i j : nat) (v : value) :
  i ≠ j →
  list_get_at (list_set_at l i v) j VUndefined = list_get_at l j VUndefined.
Proof.
  intros Hne. unfold list_get_at, list_set_at. case_decide as Hi.
  - by rewrite list_lookup_insert_ne.
  - destruct (decide (j < length l)) as [Hj | Hj].
    + by rewrite lookup_app_l.
    + rewrite (lookup_ge_None_2 l j) by lia.
      rewrite lookup_app_r by lia.
      destruct (decide (j < i)) as [Hji | Hji].
      * rewrite lookup_app_l by (rewrite length_replicate; lia).
        rewrite lookup_replicate_2; [done | lia].
      * rewrite lookup_ge_None_2; [done | ].
        rewrite length_app, length_replicate. simpl. lia.
Qed.

(** ** The effect record *)

Lemma M_bind_return {A B} (log : list event) (a : A) (k : A → M B) :
  ((log, Return a) ≫= k) = (log ++ (k a).1, (k a).2).
Proof. unfold mbind, M_bind. by destruct (k a). Qed.

Lemma M_bind_ret {A B} (a : A) (k : A → M B) : (mret a ≫= k) = k a.
Proof. unfold mret, M_ret. rewrite M_bind_return. by destruct (k a). Qed.

(** ** The base data type *)

Section BaseDataTypeProperties.
Variable same_object : value → value → bool.

Local Abbreviation strict_eq := (Js.strict_eq same_object).
Local Abbreviation hasValue := (Types.hasValue same_object).
Local Abbreviation validate_exits := (Types.validate_exits same_object).
Local Abbreviation validate := (Types.validate same_object).

Lemma hasValue_defined (this : DataType) (v : value) (checkDefault : bool) :
  hasValue this v checkDefault = true → is_undefined v = false ∧ is_null v = false.
Proof.
  destruct this; unfold Types.hasValue, ImmutableDataType_hasValue, DataType_hasValue;
    destruct (is_undefined v), (is_null v); simpl; auto.
Qed.

Lemma getValue_defined (this : DataType) (v : value) :
  is_undefined v = false → Types.getValue this v = v.
Proof.
  intros Hv.
  destruct this; unfold Types.getValue, DataType_getValue;
    destruct (truthy (isGenerated _)); simpl; by rewrite Hv.
Qed.

Lemma hasValue_absent (this : DataType) (v : value) (checkDefault : bool) :
  v = VUndefined ∨ v = VNull → hasValue this v checkDefault = false.
Proof. by destruct this; intros [-> | ->]. Qed.

(** C3: a scalar data type with [required = true] and no [defaultValue]
    option, given an absent value ([undefined] or [null]), validates to the
    error that carries the [required] message and that type; the same type
    with [generated = true] validates the absent value to no error. *)
Theorem validate_required_without_default
    (name : string) (o : Options) (v : value)
    (callback : option (unit → option ValidationError)) :
  v = VUndefined ∨ v = VNull →
  map_has o "defaultValue" = false →
  (map_get o "required" (VBool false) = VBool true →
   truthy (map_get o "generated" (VBool false)) = false →
   validate (Scalar name o) v callback
   = Some (mkValidationError validationErrors_required (Scalar name o) VNull))
  ∧ validate (Scalar name (map_set o "generated" (VBool true))) v callback = None.
Proof.
  intros Hv Hd. split.
  - intros Hreq Hgen.
    apply (map_has_false_get _ _ VUndefined) in Hd.
    unfold Types.validate, Types.validate_exits, Types.getValue, DataType_getValue,
      getDefaultValue, isGenerated, isRequired. simpl.
    rewrite Hgen, Hd, Hreq. by destruct Hv as [-> | ->].
  - unfold Types.validate, Types.validate_exits.
    set (this := Scalar name _).
    assert (truthy (isGenerated this) = true) as Hgen.
    { unfold isGenerated, this. simpl. by rewrite map_get_set_eq. }
    assert (Types.getValue this v = v) as ->.
    { unfold Types.getValue, DataType_getValue, this. fold this. rewrite Hgen.
      by destruct Hv as [-> | ->]. }
    rewrite (hasValue_absent this v false Hv), andb_false_r. simpl.
    by rewrite Hgen.
Qed.

(** C6, amended: for a data type whose [defaultValue] option is [X], where
    [X === X] holds (so [X] is not [NaN] and, when it is an object, the value
    supplied is the very object that the option set holds), validating the
    explicitly supplied [X] returns at the default short-circuit, with no
    error, before the absence / required check and before any callback,
    provided [hasValue(X, false)] is true.  Where [X === X] fails, validation
    goes past the short-circuit and the absence check, and returns what the
    callback returns. *)
Theorem validate_default_short_circuit
    (this : DataType) (X : value)
    (callback : option (unit → option ValidationError)) :
  map_get (options this) "defaultValue" VUndefined = X →
  hasValue this X false = true →
  (strict_eq X X = true →
   validate_exits this X callback = AtDefault ∧ validate this X callback = None)
  ∧ (strict_eq X X = false →
     ∀ cb, validate_exits this X (Some cb) = FromCallback (cb ())
           ∧ validate this X (Some cb) = cb ()).
Proof.
  intros Hd Hhas.
  destruct (hasValue_defined _ _ _ Hhas) as [Hu _].
  assert (getDefaultValue this VUndefined = X) as Hdefault.
  { unfold getDefaultValue. by rewrite Hd, Hu. }
  split; intros Heq.
  - assert (validate_exits this X callback = AtDefault) as Hexit.
    { unfold Types.validate_exits. rewrite (getValue_defined this X Hu).
      by rewrite Hdefault, Heq, Hhas. }
    split; [done | ]. unfold Types.validate. by rewrite Hexit.
  - intros cb.
    assert (validate_exits this X (Some cb) = FromCallback (cb ())) as Hexit.
    { unfold Types.validate_exits. rewrite (getValue_defined this X Hu).
      by rewrite Hdefault, Heq, Hhas. }
    split; [done | ]. unfold Types.validate. by rewrite Hexit.
Qed.

(** C8, as stated, fails on the number [0]: it is its own effective value,
    its string form is ["0"], and [getDisplay] returns the empty string. *)
Lemma getDisplay_zero_counterexample :
  ¬ getDisplay_as_specified (λ _, "[object]") (Scalar "amount" []) (VNum 0).
Proof. intros [Hform _]. by specialize (Hform "0" eq_refl). Qed.

(** C8, amended: [getDisplay] returns the string form of the effective value
    when that value is truthy and has a string form; it returns the empty
    string when the effective value is falsy ([undefined], [null], [false],
    [0], [NaN], the empty string) or has no string form, and only then, or
    when the string form is itself empty. *)
Theorem getDisplay_truthy_string_form
    (objectString : value → string) (this : DataType) (v : value) :
  let effective := Types.getValue this v in
  (truthy effective = true →
   ∀ s, toString objectString effective = Some s → getDisplay objectString this v = s)
  ∧ (truthy effective = false ∨ toString objectString effective = None →
     getDisplay objectString this v = "")
  ∧ (getDisplay objectString this v = "" →
     truthy effective = false
     ∨ toString objectString effective = None
     ∨ toString objectString effective = Some "").
Proof.
  unfold getDisplay. simpl. split_and!.
  - by intros -> s ->.
  - intros [-> | ->]; [done | by destruct (truthy _)].
  - destruct (truthy _); [ | by left ].
    destruct (toString _ _) as [s | ]; [ | by right; left ].
    intros ->. by right; right.
Qed.

Lemma getDisplay_truthy_string_form_witness :
  getDisplay (λ _, "[object]") (Scalar "amount" []) (VNum 42) = "42"
  ∧ getDisplay (λ _, "[object]") (Scalar "amount" []) (VBool false) = "".
Proof.
  destruct (getDisplay_truthy_string_form (λ _, "[object]") (Scalar "amount" []) (VNum 42))
    as [Hform _].
  destruct (getDisplay_truthy_string_form (λ _, "[object]") (Scalar "amount" []) (VBool false))
    as (_ & Hempty & _).
  split; [ apply Hform; reflexivity | apply Hempty; left; reflexivity ].
Defined.

Lemma option_get_with_validator (this : DataType) (f : value) (k : string) (notSet : value) :
  k ≠ "validator" →
  map_get (options (with_options this (map_set (options this) "validator" f))) k notSet
  = map_get (options this) k notSet.
Proof.
  intros Hk. destruct this; simpl; by apply map_get_set_ne.
Qed.

Lemma hasValue_with_validator (this : DataType) (f v : value) (checkDefault : bool) :
  hasValue (with_options this (map_set (options this) "validator" f)) v checkDefault
  = hasValue this v checkDefault.
Proof.
  destruct this; simpl;
    unfold ImmutableDataType_hasValue, DataType_hasValue, getDefaultValue; simpl;
    by rewrite map_get_set_ne.
Qed.

Lemma getValue_with_validator (this : DataType) (f v : value) :
  Types.getValue (with_options this (map_set (options this) "validator" f)) v
  = Types.getValue this v.
Proof.
  destruct this; simpl;
    unfold DataType_getValue, getDefaultValue, isGenerated; simpl;
    by rewrite !map_get_set_ne.
Qed.

(** C10: [validate] does not consult the [validator] option.  Whatever
    validator [f] the option set is given, [validate(value)] without a
    callback returns the same thing, no error or the same error about the
    instance validated, as without it; and without a callback no custom check
    is the source of the result.  The option is still there for
    [getValidator] to return. *)
Theorem validate_ignores_validator_option (this : DataType) (f v : value) :
  let supplied := with_options this (map_set (options this) "validator" f) in
  getValidator supplied = f
  ∧ validate supplied v None = about supplied <$> validate this v None
  ∧ (∀ r, validate_exits supplied v None ≠ FromCallback r)
  ∧ (∀ r, validate_exits this v None ≠ FromCallback r).
Proof.
  intros supplied.
  assert (∀ t r, validate_exits t v None ≠ FromCallback r) as Hnone.
  { intros t r. unfold Types.validate_exits.
    repeat match goal with |- context [if ?b then _ else _] => destruct b end; done. }
  split; [ | split; [ | split; apply Hnone ] ].
  - unfold getValidator, supplied. destruct this; simpl; apply map_get_set_eq.
  - unfold Types.validate, Types.validate_exits, isGenerated, isRequired, getDefaultValue.
    subst supplied.
    rewrite getValue_with_validator, hasValue_with_validator.
    rewrite !option_get_with_validator by done.
    repeat match goal with |- context [if ?b then _ else _] => destruct b end; done.
Qed.

End BaseDataTypeProperties.

Lemma validate_required_without_default_witness :
  validate (λ _ _, false) (Scalar "email" [("required", VBool true)]) VUndefined None
  = Some (mkValidationError validationErrors_required
            (Scalar "email" [("required", VBool true)]) VNull)
  ∧ validate (λ _ _, false)
      (Scalar "email" [("required", VBool true); ("generated", VBool true)])
      VUndefined None = None.
Proof.
  destruct (validate_required_without_default (λ _ _, false)
              "email" [("required", VBool true)]
              VUndefined None (or_introl eq_refl) eq_refl) as [Hreq Hgen].
  split; [ apply Hreq; reflexivity | exact Hgen ].
Defined.

(** C6, as stated, fails on a [defaultValue] option of [NaN], whichever
    objects are taken to be the same: [hasValue(NaN, false)] is true, the
    value supplied is the one the option holds, and [validate] goes past the
    short-circuit to the callback and returns its error. *)
Lemma validate_default_short_circuit_NaN_counterexample :
  ¬ ∃ same_object,
      default_short_circuit_as_specified same_object
        (Scalar "ratio" [("defaultValue", VNaN)]) VNaN.
Proof.
  intros [same_object H].
  destruct (H eq_refl eq_refl
              (Some (λ _, Some (mkValidationError "not a ratio" (Scalar "ratio" []) VNaN))))
    as [Hexit _].
  done.
Qed.

Lemma validate_default_short_circuit_witness :
  validate_exits (λ _ _, true)
    (ListOf "tags" [("defaultValue", VList [VStr "new"]); ("required", VBool true)]
       (Scalar "tag" []))
    (VList [VStr "new"])
    (Some (λ _, Some (mkValidationError "custom" (Scalar "other" []) VNull)))
  = AtDefault
  ∧ validate (λ _ _, false)
      (Scalar "ratio" [("defaultValue", VNaN)]) VNaN
      (Some (λ _, Some (mkValidationError "custom" (Scalar "other" []) VNull)))
    = Some (mkValidationError "custom" (Scalar "other" []) VNull).
Proof.
  split.
  - apply (validate_default_short_circuit (λ _ _, true)
             (ListOf "tags" [("defaultValue", VList [VStr "new"]); ("required", VBool true)]
                (Scalar "tag" []))
             (VList [VStr "new"])); reflexivity.
  - apply (validate_default_short_circuit (λ _ _, false)
             (Scalar "ratio" [("defaultValue", VNaN)]) VNaN None); reflexivity.
Defined.

(** ** Refs *)

Section RefProperties.
Context {View : Type}.
Variable valueRenderers_getValue : View → Refs.RenderData → value.

Local Abbreviation getValue := (Refs.getValue valueRenderers_getValue).
Local Abbreviation setValue := (Refs.setValue valueRenderers_getValue).

(** C7: for every ref, [isSingleRef() == !isMultiRef()]; list-filter and
    list-map refs are multi, direct-key, computed-view and list-find refs are
    single. *)
Theorem single_xor_multi (r : Refs.Ref View) :
  Refs.isSingleRef r = negb (Refs.isMultiRef r)
  ∧ (∀ view : View,
       Refs.isMultiRef (Refs.ImmutableListFilterRef view) = true
       ∧ Refs.isMultiRef (Refs.ImmutableListMapRef view) = true
       ∧ Refs.isSingleRef (Refs.ImmutableListFindRef view) = true)
  ∧ (∀ view : option View, Refs.isSingleRef (Refs.ImmutableViewRef view) = true)
  ∧ (∀ key : string, Refs.isSingleRef (@Refs.ImmutableRef View key) = true).
Proof.
  split; [ | done ].
  unfold Refs.isMultiRef. by rewrite negb_involutive.
Qed.

(** C9: on an absent container ([undefined] or [null]) the [setValue] of a
    direct-key ref throws, whatever the key, the empty key of the identity
    ref included, while its [getValue] returns [null] and does not throw. *)
Theorem direct_key_absent_container
    (key : string) (dataType : DataType) (container childValue renderOptions : value) :
  container = VUndefined ∨ container = VNull →
  setValue (Refs.ImmutableRef key) dataType container childValue renderOptions
  = ([], Throw (Error "Cannot set value for on a null object"))
  ∧ getValue (Refs.ImmutableRef key) dataType container renderOptions
    = ([], Return VNull).
Proof. by intros [-> | ->]. Qed.

Lemma nonempty_key_truthy (key : string) : key ≠ "" → truthy (VStr key) = true.
Proof.
  intros Hk. simpl. destruct (String.eqb key "") eqn:E; [ | done ].
  by apply String.eqb_eq in E.
Qed.

(** C5, amended: for every persistent container, non-empty key that
    addresses an entry of it, and value, the round trip holds, and the write
    leaves the original container as it was: it returns a new root and
    changes nothing in place. *)
Theorem direct_key_round_trip
    (dataType : DataType) (renderOptions container : value) (key : string) (v : value) :
  addresses container key →
  key ≠ "" →
  round_trip valueRenderers_getValue dataType renderOptions container key v
  ∧ mutated (events (setValue (Refs.ImmutableRef key) dataType container v renderOptions))
    = [].
Proof.
  intros Haddr Hkey. apply nonempty_key_truthy in Hkey.
  unfold round_trip. simpl.
  unfold Refs.ImmutableRef_setValue, Refs.ImmutableRef_getValue.
  destruct container as [ | | | | | | | l | m | | m ]; try done; simpl in *; rewrite Hkey; simpl.
  - destruct Haddr as [i Hi]. split; [ | done ].
    exists (VList (list_set l key v)). split; [done | ]. simpl.
    unfold list_get, list_set. rewrite Hi. by rewrite list_get_set_at_eq.
  - split; [ | done ].
    exists (VMap (map_set m key v)). split; [done | ]. simpl.
    by rewrite map_get_set_eq.
Qed.

(** Reading any other key in the new root gives what it gave in the
    original. *)
Lemma direct_key_frame
    (dataType : DataType) (renderOptions container : value) (key key' : string)
    (v root : value) :
  key ≠ "" → key' ≠ "" → key' ≠ key →
  isImmutable container = true →
  setValue (Refs.ImmutableRef key) dataType container v renderOptions = ([], Return root) →
  getValue (Refs.ImmutableRef key') dataType root renderOptions
  = getValue (Refs.ImmutableRef key') dataType container renderOptions.
Proof.
  intros Hkey Hkey' Hne Himm.
  apply nonempty_key_truthy in Hkey, Hkey'. simpl in Hkey, Hkey' |- *.
  unfold Refs.ImmutableRef_setValue, Refs.ImmutableRef_getValue.
  destruct container as [ | | | | | | | l | m | | m ]; try done; simpl; rewrite Hkey, Hkey'; simpl;
    intros [= <-]; simpl.
  - cut (list_get (list_set l key v) key' VUndefined = list_get l key' VUndefined);
      [ by intros -> | ].
    unfold list_get, list_set.
    destruct (wrapIndex key) as [i | ] eqn:Hi; [ | done ].
    destruct (wrapIndex key') as [j | ] eqn:Hj; [ | done ].
    apply list_get_set_at_ne. intros ->. apply Hne. eauto using wrapIndex_inj.
  - by rewrite map_get_set_ne.
Qed.

End RefProperties.

(** C5, as stated for every persistent container and every non-empty key,
    fails on a list and a key that is not an index: the list ignores the
    write and the read returns [undefined]. *)
Lemma direct_key_round_trip_list_counterexample :
  ¬ round_trip no_view (Scalar "model" []) VUndefined (VList []) "k" (VNum 1).
Proof. intros [root [Hset Hget]]. injection Hset as <-. discriminate Hget. Qed.

Lemma direct_key_round_trip_witness :
  round_trip no_view (Scalar "model" []) VUndefined
    (VMap [("name", VStr "old")]) "name" (VStr "new")
  ∧ round_trip no_view (Scalar "model" []) VUndefined (VList [VNum 1]) "2" (VNum 3).
Proof.
  split.
  - apply (direct_key_round_trip no_view (Scalar "model" [])
             VUndefined (VMap [("name", VStr "old")]) "name" (VStr "new"));
      [ exact I | discriminate ].
  - apply (direct_key_round_trip no_view (Scalar "model" [])
             VUndefined (VList [VNum 1]) "2" (VNum 3));
      [ vm_compute; eauto | discriminate ].
Defined.

Lemma direct_key_absent_container_witness :
  Refs.setValue no_view (Refs.ImmutableRef "") (Scalar "model" []) VNull (VNum 1) VUndefined
  = ([], Throw (Error "Cannot set value for on a null object"))
  ∧ Refs.getValue no_view (Refs.ImmutableRef "") (Scalar "model" []) VNull VUndefined
    = ([], Return VNull).
Proof.
  apply (direct_key_absent_container no_view "" (Scalar "model" []) VNull (VNum 1) VUndefined).
  right. reflexivity.
Defined.

(** ** List refs *)

Section ListRefProperties.
Context {View : Type}.
Variable valueRenderers_getValue : View → Refs.RenderData → value.

Local Abbreviation getValue := (Refs.getValue valueRenderers_getValue).
Local Abbreviation setValue := (Refs.setValue valueRenderers_getValue).
Local Abbreviation satisfies := (Spec.satisfies valueRenderers_getValue).

Lemma first_match_list_find (p : value → bool) (l : list value) (found : option nat) :
  first_match p l found → fst <$> list_find (λ x, p x = true) l = found.
Proof.
  destruct found as [i | ]; simpl.
  - intros [[x [Hx Hp]] Hbefore].
    assert (list_find (λ x, p x = true) l = Some (i, x)) as ->; [ | done ].
    apply list_find_Some. split_and!; [done | done | ].
    intros j y Hy Hj. rewrite (Hbefore j y Hj Hy). done.
  - intros Hnone.
    assert (list_find (λ x, p x = true) l = None) as ->; [ | done ].
    apply list_find_None, Forall_forall. intros x Hx. rewrite (Hnone x Hx). done.
Qed.

(** Every list has a first match or none. *)
Lemma first_match_total (p : value → bool) (l : list value) :
  ∃ found, first_match p l found.
Proof.
  destruct (list_find (λ x, p x = true) l) as [[i x] | ] eqn:E.
  - exists (Some i). apply list_find_Some in E as (Hx & Hp & Hbefore).
    split; [ by exists x | ].
    intros j y Hj Hy. specialize (Hbefore j y Hy Hj). by destruct (p y).
  - exists None. simpl. intros x Hx.
    apply list_find_None in E. rewrite Forall_forall in E.
    specialize (E x Hx). by destruct (p x).
Qed.

(** The search runs the predicate on the items up to and including the first
    match, in order, and on no other. *)
Lemma find_from_first (f : value → value) (l : list value) (k : nat) :
  Refs.find_from (λ item, tell (ApplyView item);; mret (f item)) l k
  = match list_find (λ x, truthy (f x) = true) l with
    | Some (i, x) => (ApplyView <$> take (S i) l, Return (Some (k + i, x)))
    | None => (ApplyView <$> l, Return None)
    end.
Proof.
  revert k. induction l as [ | a l IH ]; intros k; [done | ].
  cbn [Refs.find_from list_find]. unfold mbind, M_bind at 1. cbn [tell mret M_ret].
  unfold mbind, M_bind at 1. cbn [tell mret M_ret app].
  case_decide as Ha.
  - rewrite Ha. cbn. by rewrite Nat.add_0_r.
  - apply not_true_is_false in Ha. rewrite Ha. rewrite IH.
    destruct (list_find _ l) as [[i x] | ]; cbn; [ | done ].
    by rewrite Nat.add_succ_r.
Qed.

(** What the [setValue] of a list-find ref computes on a list. *)
Lemma list_find_setValue_computes
    (view : View) (name : string) (o : Options) (itemType : DataType)
    (l : list value) (newItem renderOptions : value) (found : option nat) :
  first_match (satisfies view itemType renderOptions) l found →
  setValue (Refs.ImmutableListFindRef view) (ListOf name o itemType) (VList l)
    newItem renderOptions
  = (ApplyView <$> examined l found,
     Return (VList match found with
                   | Some i => <[i := newItem]> l
                   | None => l ++ [newItem]
                   end)).
Proof.
  intros Hfound. apply first_match_list_find in Hfound.
  cbn [Refs.setValue]. unfold Refs.ImmutableListFindRef_setValue, Refs.findIndex.
  cbn [Refs.call_getItemType getItemType]. unfold mbind at 1. cbn [M_bind mret M_ret].
  rewrite (find_from_first
             (λ item, valueRenderers_getValue view
                        (Refs.mkRenderData itemType item renderOptions)) l 0).
  unfold Spec.satisfies in Hfound.
  destruct (list_find _ l) as [[i x] | ] eqn:E; simpl in Hfound; subst found.
  - apply list_find_Some in E as (Hx & _ & _). apply lookup_lt_Some in Hx.
    cbn. rewrite app_nil_r.
    replace (0 <=? Z.of_nat i)%Z with true by (symmetry; apply Z.leb_le; lia).
    cbn. rewrite app_nil_r, Nat2Z.id.
    unfold list_set_at. by rewrite decide_True by done.
  - cbn. by rewrite !app_nil_r.
Qed.

(** C4: the [setValue] of a list-find ref evaluates the view on the items
    from the left, up to the first one that satisfies it.  When there is one,
    the result is the list with the new item at that index, the other items
    and the size as they were; when there is none, the result is the list
    with the new item appended at the end. *)
Theorem list_find_setValue_upsert
    (view : View) (name : string) (o : Options) (itemType : DataType)
    (l : list value) (newItem renderOptions : value) (found : option nat) :
  first_match (satisfies view itemType renderOptions) l found →
  ∃ l',
    setValue (Refs.ImmutableListFindRef view) (ListOf name o itemType) (VList l)
      newItem renderOptions
    = (ApplyView <$> examined l found, Return (VList l'))
    ∧ upserted l newItem found l'.
Proof.
  intros Hfound. rewrite (list_find_setValue_computes _ _ _ _ _ _ _ found Hfound).
  eexists. split; [done | ].
  destruct found as [i | ]; simpl; [ | done ].
  destruct Hfound as [[x [Hx _]] _]. apply lookup_lt_Some in Hx.
  split_and!.
  - apply length_insert.
  - by apply list_lookup_insert_eq.
  - intros j Hj. by apply list_lookup_insert_ne.
Qed.

(** The filter runs the predicate on every item, in order. *)
Lemma filter_items_all {K} (f : value → value) (pairs : list (K * value)) :
  Refs.filter_items (λ p : K * value, tell (ApplyView p.2);; mret (f p.2)) pairs
  = (ApplyView ∘ snd <$> pairs,
     Return (filter (λ p : K * value, truthy (f p.2) = true) pairs)).
Proof.
  induction pairs as [ | [k x] pairs IH ]; [done | ].
  cbn [Refs.filter_items]. rewrite IH, filter_cons. cbn [snd].
  unfold mbind, M_bind. cbn [tell mret M_ret app]. rewrite app_nil_r.
  case_decide as Hx.
  - by rewrite Hx.
  - apply not_true_is_false in Hx. by rewrite Hx.
Qed.

Lemma includes_matching_index (p : value → bool) (l : list value) (i : nat) (x : value) :
  l !! i = Some x →
  Refs.includes
    (fst <$> filter (λ q : nat * value, p q.2 = true) (imap (λ index item, (index, item)) l))
    i
  = p x.
Proof.
  intros Hx. unfold Refs.includes.
  destruct (p x) eqn:Hp.
  - apply bool_decide_eq_true. apply list_elem_of_fmap. exists (i, x).
    split; [done | ]. apply list_elem_of_filter. split; [done | ].
    by apply (elem_of_lookup_imap_2 (λ index item, (index, item))).
  - apply bool_decide_eq_false. intros Hin.
    apply list_elem_of_fmap in Hin as [[j y] [Hj Hin]]. simpl in Hj. subst j.
    apply list_elem_of_filter in Hin as [Hy Hin]. simpl in Hy.
    apply elem_of_lookup_imap in Hin as (j & z & Heq & Hz).
    injection Heq as -> ->. congruence.
Qed.

(** What the [setValue] of a list-filter ref computes on a list: the view is
    evaluated on every item in order; the result has the new item where the
    item satisfies the view, and the number of the position elsewhere. *)
Lemma list_filter_setValue_computes
    (view : View) (name : string) (o : Options) (itemType : DataType)
    (l : list value) (newItem renderOptions : value) :
  setValue (Refs.ImmutableListFilterRef view) (ListOf name o itemType) (VList l)
    newItem renderOptions
  = ((if isList newItem then [Warn Refs.list_item_warning] else []) ++ (ApplyView <$> l),
     Return (VList (imap (λ index item,
                       if satisfies view itemType renderOptions item then newItem
                       else VNum (Z.of_nat index)) l))).
Proof.
  cbn [Refs.setValue]. unfold Refs.ImmutableListFilterRef_setValue, Refs.matching_indexes.
  cbn [Refs.call_getItemType getItemType].
  assert (Refs.warn_list_item newItem
          = (if isList newItem then [Warn Refs.list_item_warning] else [], Return ()))
    as -> by (unfold Refs.warn_list_item; by destruct (isList newItem)).
  rewrite M_bind_return, (M_bind_ret itemType).
  rewrite (filter_items_all
             (λ item, valueRenderers_getValue view
                        (Refs.mkRenderData itemType item renderOptions))).
  rewrite M_bind_return. cbn [fst snd mret M_ret].
  rewrite M_bind_return. cbn [fst snd mret M_ret]. rewrite !app_nil_r.
  assert (ApplyView ∘ snd <$> imap (λ index item, (index, item)) l = ApplyView <$> l)
    as ->.
  { rewrite fmap_imap, <- (imap_const ApplyView). by apply imap_ext. }
  do 3 f_equal. apply imap_ext. intros i x Hx. simpl.
  by rewrite (includes_matching_index
                (λ item, truthy (valueRenderers_getValue view
                                   (Refs.mkRenderData itemType item renderOptions)))
                l i x Hx).
Qed.

(** The three parts of C1 on the value that is computed: the size is kept
    and the matching positions hold the new item, but a position whose item
    does not match holds its own number. *)
Lemma list_filter_setValue_positions
    (view : View) (name : string) (o : Options) (itemType : DataType)
    (l : list value) (newItem renderOptions : value) :
  ∃ l',
    result (setValue (Refs.ImmutableListFilterRef view) (ListOf name o itemType)
              (VList l) newItem renderOptions) = Return (VList l')
    ∧ length l' = length l
    ∧ (∀ i x, l !! i = Some x → satisfies view itemType renderOptions x = true →
              l' !! i = Some newItem)
    ∧ (∀ i x, l !! i = Some x → satisfies view itemType renderOptions x = false →
              l' !! i = Some (VNum (Z.of_nat i))).
Proof.
  rewrite list_filter_setValue_computes. eexists. split; [done | ].
  split; [ apply length_imap | ].
  split; intros i x Hx Hp; rewrite list_lookup_imap, Hx; simpl; by rewrite Hp.
Qed.

(** A value that is not a persistent container is turned down by the
    [getValue] of every list ref, before the view is evaluated. *)
Lemma list_getValue_rejects_non_container
    (r : Refs.Ref View) (dataType : DataType) (v renderOptions : value) :
  Refs.isListRef r = true →
  isImmutable v = false →
  getValue r dataType v renderOptions
  = ([], Throw (Error "Cannot reference a non-list with a list ref")).
Proof.
  intros Hr Hv.
  destruct r; try done; cbn [Refs.getValue]; unfold Refs.ImmutableListRef_getValue;
    unfold Refs.checkValidData; cbn [Refs.instanceof_list negb];
    rewrite Hv, orb_true_r; done.
Qed.

(** The data type takes no part in [checkValidData]. *)
Lemma checkValidData_any_type (dataType dataType' : DataType) (v : value) :
  Refs.checkValidData dataType v = Refs.checkValidData dataType' v.
Proof. reflexivity. Qed.

End ListRefProperties.

(** ** The cases of the specification *)

(** C1 at the list [[A, B, A]], a view matching the items equal to [A] and
    the new item [N]: the [setValue] of the list-filter ref returns
    [[N, 1, N]], the position of [B] holding its index, and not [[N, B, N]]. *)
Theorem list_filter_setValue_ABA :
  Refs.setValue (equals (VStr "A")) (Refs.ImmutableListFilterRef ()) items
    (VList [VStr "A"; VStr "B"; VStr "A"]) (VStr "N") VUndefined
  = ([ApplyView (VStr "A"); ApplyView (VStr "B"); ApplyView (VStr "A")],
     Return (VList [VStr "N"; VNum 1; VStr "N"]))
  ∧ result (Refs.setValue (equals (VStr "A")) (Refs.ImmutableListFilterRef ()) items
              (VList [VStr "A"; VStr "B"; VStr "A"]) (VStr "N") VUndefined)
    ≠ Return (VList [VStr "N"; VStr "B"; VStr "N"]).
Proof. split; [reflexivity | discriminate]. Qed.

(** C2 where the code departs from it.  [checkValidData] accepts a data type
    that is not list-shaped; the [getValue] of a list-find ref under such a
    type fails only on the missing [getItemType]; and the [setValue] of the
    list-filter and list-find refs, given a plain array, evaluate the view on
    its items and return. *)
Theorem list_ref_validation_gaps :
  Refs.checkValidData (Scalar "title" []) (VList [VStr "A"]) = ([], Return ())
  ∧ Refs.getValue (equals (VStr "A")) (Refs.ImmutableListFindRef ()) (Scalar "title" [])
      (VList [VStr "A"]) VUndefined
    = ([], Throw (TypeError "listType.getItemType is not a function"))
  ∧ Refs.setValue (equals (VStr "A")) (Refs.ImmutableListFilterRef ()) items
      (VArray [VStr "A"; VStr "B"]) (VStr "N") VUndefined
    = ([ApplyView (VStr "A"); ApplyView (VStr "B")], Return (VArray [VStr "N"; VNum 1]))
  ∧ Refs.setValue (equals (VStr "A")) (Refs.ImmutableListFindRef ()) items
      (VArray [VStr "B"]) (VStr "N") VUndefined
    = ([ApplyView (VStr "B"); Mutate (VArray [VStr "B"])], Return (VNum 2)).
Proof. repeat split. Qed.

Lemma list_find_setValue_upsert_witness :
  (∃ l',
     Refs.setValue (equals (VStr "B")) (Refs.ImmutableListFindRef ()) items
       (VList [VStr "A"; VStr "B"; VStr "C"]) (VStr "N") VUndefined
     = (ApplyView <$> [VStr "A"; VStr "B"], Return (VList l'))
     ∧ upserted [VStr "A"; VStr "B"; VStr "C"] (VStr "N") (Some 1) l')
  ∧ (∃ l',
       Refs.setValue (equals (VStr "Z")) (Refs.ImmutableListFindRef ()) items
         (VList [VStr "A"; VStr "B"; VStr "C"]) (VStr "N") VUndefined
       = (ApplyView <$> [VStr "A"; VStr "B"; VStr "C"], Return (VList l'))
       ∧ upserted [VStr "A"; VStr "B"; VStr "C"] (VStr "N") None l').
Proof.
  split.
  - apply (list_find_setValue_upsert (equals (VStr "B")) () "items" [] (Scalar "item" [])
             [VStr "A"; VStr "B"; VStr "C"] (VStr "N") VUndefined (Some 1)).
    split.
    + exists (VStr "B"). split; reflexivity.
    + intros [ | j ] y Hj Hy; [ | lia ]. injection Hy as <-. reflexivity.
  - apply (list_find_setValue_upsert (equals (VStr "Z")) () "items" [] (Scalar "item" [])
             [VStr "A"; VStr "B"; VStr "C"] (VStr "N") VUndefined None).
    intros x Hx. repeat (apply elem_of_cons in Hx as [-> | Hx]; [reflexivity | ]).
    by apply elem_of_nil in Hx.
Defined.

(** * Further properties *)

(** ** Effective values and validation *)

Lemma getDefaultValue_defined (this : DataType) (defaultValue : value) :
  is_undefined (getDefaultValue this defaultValue) = false.
Proof.
  unfold getDefaultValue.
  destruct (is_undefined (map_get _ _ _)) eqn:E; [ | done ].
  by destruct defaultValue.
Qed.

(** X1: resolving an effective value again gives it back, whatever the
    fallbacks of the two calls. *)
Theorem getValue_idempotent (this : DataType) (v fallback fallback' : value) :
  DataType_getValue this (DataType_getValue this v fallback) fallback'
  = DataType_getValue this v fallback.
Proof.
  unfold DataType_getValue.
  destruct (truthy (isGenerated this)); simpl.
  - by destruct v.
  - destruct (is_undefined v) eqn:Hv; simpl.
    + by repeat (rewrite getDefaultValue_defined; simpl).
    + by rewrite Hv.
Qed.

(** X2: the effective value is [undefined] only when [undefined] is given to
    a generated type.  Any other type replaces [undefined] by its
    [defaultValue] option, else by the fallback of the call, else by [null];
    and a value that is not [undefined] is its own effective value, [null]
    included. *)
Theorem getValue_undefined_iff (this : DataType) (v fallback : value) :
  (DataType_getValue this v fallback = VUndefined
   ↔ v = VUndefined ∧ truthy (isGenerated this) = true)
  ∧ (v ≠ VUndefined → DataType_getValue this v fallback = v)
  ∧ (truthy (isGenerated this) = false →
     DataType_getValue this VUndefined fallback
     = if is_undefined (map_get (options this) "defaultValue" VUndefined)
       then (if is_undefined fallback then VNull else fallback)
       else map_get (options this) "defaultValue" VUndefined).
Proof.
  unfold DataType_getValue. split_and!.
  - destruct (truthy (isGenerated this)); simpl.
    + destruct v; simpl; split; try done; by intros [? _].
    + destruct (is_undefined v) eqn:Hv; simpl.
      * pose proof (getDefaultValue_defined this fallback) as Hd.
        rewrite Hd. simpl. split; [ | by intros [_ ?] ].
        intros E. by rewrite E in Hd.
      * split; [ | by intros [_ ?] ]. intros ->. done.
  - intros Hv. assert (is_undefined v = false) as Hu by (by destruct v).
    destruct (truthy (isGenerated this)); simpl; by rewrite Hu.
  - intros ->. simpl. rewrite getDefaultValue_defined. done.
Qed.

Lemma getValue_undefined_iff_witness :
  DataType_getValue (Scalar "age" [("defaultValue", VNum 18)]) (VNum 0) VUndefined = VNum 0
  ∧ DataType_getValue (Scalar "age" [("defaultValue", VNum 18)]) VUndefined (VNum 1)
    = VNum 18.
Proof.
  destruct (getValue_undefined_iff (Scalar "age" [("defaultValue", VNum 18)]) (VNum 0)
              VUndefined) as (_ & Hdefined & _).
  destruct (getValue_undefined_iff (Scalar "age" [("defaultValue", VNum 18)]) VUndefined
              (VNum 1)) as (_ & _ & Hdefault).
  split; [ apply Hdefined; discriminate | apply Hdefault; reflexivity ].
Defined.

Section ValidationProperties.
Variable same_object : value → value → bool.

Local Abbreviation strict_eq := (Js.strict_eq same_object).
Local Abbreviation hasValue := (Types.hasValue same_object).
Local Abbreviation validate_exits := (Types.validate_exits same_object).
Local Abbreviation validate := (Types.validate same_object).

(** X3: without a callback, [validate] returns an error exactly when the
    effective value has no value, the type is not generated and it is
    required; the error is then the [required] one, about this type and the
    effective value. *)
Theorem validate_error_iff (this : DataType) (v : value) (e : ValidationError) :
  validate this v None = Some e
  ↔ e = mkValidationError validationErrors_required this (Types.getValue this v)
    ∧ hasValue this (Types.getValue this v) false = false
    ∧ truthy (isGenerated this) = false
    ∧ truthy (isRequired this) = true.
Proof.
  unfold Types.validate, Types.validate_exits.
  destruct (hasValue this (Types.getValue this v) false) eqn:Hhas;
    rewrite ?andb_true_r, ?andb_false_r; simpl.
  - destruct (strict_eq _ _); simpl; split; try done; by intros (_ & ? & _).
  - destruct (truthy (isGenerated this)), (truthy (isRequired this)); simpl;
      split; try done; try (by intros (_ & _ & ? & ?)).
    + by intros [= <-].
    + by intros (-> & _).
Qed.

(** X4: a callback is run exactly when the effective value has a value and
    [===] does not hold between it and the default, as for a value that is
    not the default, for [NaN], and for an object other than the one the
    option set holds, whatever its contents; what the callback returns is
    then what [validate] returns. *)
Theorem validate_callback_iff (this : DataType) (v : value)
    (callback : unit → option ValidationError) :
  (validate_exits this v (Some callback) = FromCallback (callback ())
   ↔ hasValue this (Types.getValue this v) false = true
     ∧ strict_eq (Types.getValue this v) (getDefaultValue this VUndefined) = false)
  ∧ (validate_exits this v (Some callback) = FromCallback (callback ()) →
     validate this v (Some callback) = callback ()).
Proof.
  split.
  - unfold Types.validate_exits.
    destruct (hasValue this (Types.getValue this v) false) eqn:Hhas;
      rewrite ?andb_true_r, ?andb_false_r; simpl.
    + destruct (strict_eq _ _); simpl; split; try done. by intros [_ ?].
    + split; [ | by intros [? _] ].
      by destruct (truthy (isGenerated this)), (truthy (isRequired this)).
  - unfold Types.validate. by intros ->.
Qed.

Lemma strict_eq_null (v : value) : is_null v = false → strict_eq VNull v = false.
Proof. by destruct v. Qed.

(** X5: only [undefined] is replaced by the default.  For a type that is not
    generated and whose [defaultValue] option [X] has a value, [undefined]
    validates to no error, required or not and whatever the callback, when
    [X === X] holds; when it does not, as for [NaN], [undefined] validates to
    what the callback returns.  [null] stays [null] either way: a required
    type answers it with the [required] error. *)
Theorem validate_null_is_not_defaulted (this : DataType) (X : value)
    (callback : option (unit → option ValidationError)) :
  map_get (options this) "defaultValue" VUndefined = X →
  hasValue this X false = true →
  truthy (isGenerated this) = false →
  (strict_eq X X = true → validate this VUndefined callback = None)
  ∧ (strict_eq X X = false → ∀ cb, validate this VUndefined (Some cb) = cb ())
  ∧ (truthy (isRequired this) = true →
     validate this VNull callback
     = Some (mkValidationError validationErrors_required this VNull))
  ∧ (truthy (isRequired this) = false → validate this VNull callback = None).
Proof.
  intros Hd Hhas Hgen.
  destruct (hasValue_defined _ _ _ _ Hhas) as [Hu Hn].
  assert (getDefaultValue this VUndefined = X) as HX.
  { unfold getDefaultValue. by rewrite Hd, Hu. }
  assert (Types.getValue this VUndefined = X) as Heff.
  { destruct this; unfold Types.getValue, DataType_getValue;
      rewrite Hgen; simpl; by rewrite HX, Hu. }
  assert (Types.getValue this VNull = VNull) as Hnull by (by apply getValue_defined).
  unfold Types.validate, Types.validate_exits. rewrite Heff, Hnull, HX.
  rewrite Hhas, (strict_eq_null X Hn). simpl.
  rewrite (hasValue_absent same_object this VNull false) by auto. simpl. rewrite Hgen.
  split_and!; [by intros -> | by intros -> | by intros -> | by intros -> ].
Qed.

(** X6: what has a value.  A value passes [hasValue] with the default check
    exactly when it passes without it and [===] does not hold between it and
    the default; so the default does not pass with the check when it is
    [===] to itself, and does when it is [NaN] or an object taken for
    another.  [undefined] and [null] never pass; and a composite type passes
    only what has a positive [size], persistent container or not. *)
Theorem hasValue_cases (this : DataType) (v : value) :
  (hasValue this v true = true
   ↔ hasValue this v false = true
     ∧ strict_eq v (getDefaultValue this VUndefined) = false)
  ∧ (∀ checkDefault,
       hasValue this v checkDefault = true → is_undefined v = false ∧ is_null v = false)
  ∧ (∀ name o itemType checkDefault,
       hasValue (ListOf name o itemType) v checkDefault = true →
       truthy v = true ∧ size_positive v = true)
  ∧ (∀ name itemType checkDefault k x,
       hasValue (ListOf name [] itemType) (VNativeMap [(k, x)]) checkDefault = true).
Proof.
  split_and!.
  - destruct this;
      unfold Types.hasValue, ImmutableDataType_hasValue, DataType_hasValue;
      rewrite !andb_true_r, !andb_false_r, !orb_false_r;
      destruct (is_undefined v || is_null v) eqn:Hv; simpl;
      try (split; [done | by intros [? _] ]);
      destruct (strict_eq v _) eqn:E; simpl;
      try (split; [done | by intros [_ ?] ]);
      (split; [by intros -> | by intros [? _] ]).
  - intros checkDefault. apply hasValue_defined.
  - intros name o itemType checkDefault.
    unfold Types.hasValue, ImmutableDataType_hasValue.
    destruct (DataType_hasValue _ _ _ _); simpl; [ | done ].
    by intros [? ?]%andb_true_iff.
  - done.
Qed.

End ValidationProperties.

Lemma validate_callback_iff_witness :
  validate (λ _ _, false) (Scalar "age" [("defaultValue", VNum 18)]) (VNum 7)
    (Some (λ _, Some (mkValidationError "too young" (Scalar "age" []) (VNum 7))))
  = Some (mkValidationError "too young" (Scalar "age" []) (VNum 7)).
Proof.
  apply (validate_callback_iff (λ _ _, false)
           (Scalar "age" [("defaultValue", VNum 18)]) (VNum 7)
           (λ _, Some (mkValidationError "too young" (Scalar "age" []) (VNum 7)))).
  reflexivity.
Defined.

Lemma validate_null_is_not_defaulted_witness :
  validate (λ _ _, false)
    (Scalar "age" [("defaultValue", VNum 18); ("required", VBool true)])
    VUndefined None = None
  ∧ validate (λ _ _, false)
      (Scalar "age" [("defaultValue", VNum 18); ("required", VBool true)])
      VNull None
    = Some (mkValidationError validationErrors_required
              (Scalar "age" [("defaultValue", VNum 18); ("required", VBool true)]) VNull).
Proof.
  destruct (validate_null_is_not_defaulted (λ _ _, false)
              (Scalar "age" [("defaultValue", VNum 18); ("required", VBool true)])
              (VNum 18) None eq_refl eq_refl eq_refl) as (Hundefined & _ & Hnull & _).
  split; [ apply Hundefined; reflexivity | apply Hnull; reflexivity ].
Defined.

Lemma hasValue_cases_witness :
  hasValue (λ _ _, false)
    (ListOf "tags" [("defaultValue", VList [VStr "new"])] (Scalar "tag" []))
    (VList [VStr "new"]) true = true
  ∧ truthy (VList [VStr "new"]) = true
  ∧ size_positive (VList [VStr "new"]) = true.
Proof.
  destruct (hasValue_cases (λ _ _, false)
              (ListOf "tags" [("defaultValue", VList [VStr "new"])] (Scalar "tag" []))
              (VList [VStr "new"])) as (Hiff & _ & Hsize & _).
  split.
  - apply Hiff. split; reflexivity.
  - apply (Hsize "tags" [("defaultValue", VList [VStr "new"])] (Scalar "tag" []) false).
    reflexivity.
Defined.

(** ** Reading through list refs *)

Section ListReadProperties.
Context {View : Type}.
Variable valueRenderers_getValue : View → Refs.RenderData → value.

Local Abbreviation getValue := (Refs.getValue valueRenderers_getValue).
Local Abbreviation setValue := (Refs.setValue valueRenderers_getValue).
Local Abbreviation satisfies := (Spec.satisfies valueRenderers_getValue).

Lemma filter_items_values (f : value → value) (l : list value) :
  Refs.filter_items (λ item, tell (ApplyView item);; mret (f item)) l
  = (ApplyView <$> l, Return (filter (λ x, truthy (f x) = true) l)).
Proof.
  induction l as [ | x l IH ]; [done | ].
  cbn [Refs.filter_items]. rewrite IH, filter_cons.
  unfold mbind, M_bind. cbn [tell mret M_ret app]. rewrite app_nil_r.
  case_decide as Hx.
  - by rewrite Hx.
  - apply not_true_is_false in Hx. by rewrite Hx.
Qed.

Lemma map_items_values (f : value → value) (l : list value) :
  Refs.map_items (λ item, tell (ApplyView item);; mret (f item)) l
  = (ApplyView <$> l, Return (f <$> l)).
Proof.
  induction l as [ | x l IH ]; [done | ].
  cbn [Refs.map_items]. rewrite IH.
  unfold mbind, M_bind. cbn [tell mret M_ret app]. by rewrite app_nil_r.
Qed.

Lemma list_filter_getValue_computes
    (view : View) (name : string) (o : Options) (itemType : DataType)
    (l : list value) (renderOptions : value) :
  getValue (Refs.ImmutableListFilterRef view) (ListOf name o itemType) (VList l)
    renderOptions
  = (ApplyView <$> l,
     Return (VList (filter (λ x, satisfies view itemType renderOptions x = true) l))).
Proof.
  cbn [Refs.getValue]. unfold Refs.ImmutableListRef_getValue.
  cbn [Refs.method Refs.call_getItemType getItemType].
  unfold Refs.checkValidData. cbn [Refs.instanceof_list negb truthy isImmutable orb].
  rewrite !M_bind_ret. cbn [Refs.call_method]. unfold Refs.applyView.
  rewrite (filter_items_values
             (λ item, valueRenderers_getValue view
                        (Refs.mkRenderData itemType item renderOptions))).
  done.
Qed.

(** X7: on a list under a list type, the [getValue] of a list-filter ref
    evaluates the view once on every item, from left to right, and returns
    the items that satisfy it, in their order: a sublist of the list that
    holds exactly the satisfying items. *)
Theorem list_filter_getValue_sublist
    (view : View) (name : string) (o : Options) (itemType : DataType)
    (l : list value) (renderOptions : value) :
  ∃ matches,
    getValue (Refs.ImmutableListFilterRef view) (ListOf name o itemType) (VList l)
      renderOptions
    = (ApplyView <$> l, Return (VList matches))
    ∧ matches = filter (λ x, satisfies view itemType renderOptions x = true) l
    ∧ matches `sublist_of` l
    ∧ ∀ x, x ∈ matches ↔ x ∈ l ∧ satisfies view itemType renderOptions x = true.
Proof.
  rewrite list_filter_getValue_computes. eexists. split_and!; [done | done | | ].
  - apply sublist_filter.
  - intros x. rewrite list_elem_of_filter. tauto.
Qed.

(** X9: on a list under a list type, the [getValue] of a list-map ref
    evaluates the view once on every item, from left to right, and returns
    the list of what the view gave: as long as the list, item for item. *)
Theorem list_map_getValue_pointwise
    (view : View) (name : string) (o : Options) (itemType : DataType)
    (l : list value) (renderOptions : value) :
  getValue (Refs.ImmutableListMapRef view) (ListOf name o itemType) (VList l)
    renderOptions
  = (ApplyView <$> l,
     Return (VList ((λ item, valueRenderers_getValue view
                               (Refs.mkRenderData itemType item renderOptions)) <$> l))).
Proof.
  cbn [Refs.getValue]. unfold Refs.ImmutableListRef_getValue.
  cbn [Refs.method Refs.call_getItemType getItemType].
  unfold Refs.checkValidData. cbn [Refs.instanceof_list negb truthy isImmutable orb].
  rewrite !M_bind_ret. cbn [Refs.call_method]. unfold Refs.applyView.
  rewrite (map_items_values
             (λ item, valueRenderers_getValue view
                        (Refs.mkRenderData itemType item renderOptions))).
  done.
Qed.

Lemma list_find_getValue_computes
    (view : View) (name : string) (o : Options) (itemType : DataType)
    (l : list value) (renderOptions : value) :
  getValue (Refs.ImmutableListFindRef view) (ListOf name o itemType) (VList l)
    renderOptions
  = match list_find (λ x, satisfies view itemType renderOptions x = true) l with
    | Some (i, x) => (ApplyView <$> take (S i) l, Return x)
    | None => (ApplyView <$> l, Return VUndefined)
    end.
Proof.
  cbn [Refs.getValue]. unfold Refs.ImmutableListRef_getValue.
  cbn [Refs.method Refs.call_getItemType getItemType].
  unfold Refs.checkValidData. cbn [Refs.instanceof_list negb truthy isImmutable orb].
  rewrite !M_bind_ret. cbn [Refs.call_method]. unfold Refs.applyView, Refs.find.
  rewrite (find_from_first
             (λ item, valueRenderers_getValue view
                        (Refs.mkRenderData itemType item renderOptions)) l 0).
  unfold Spec.satisfies.
  destruct (list_find _ l) as [[i x] | ]; rewrite M_bind_return; cbn;
    by rewrite app_nil_r.
Qed.

Lemma head_filter_list_find (P : value → Prop) `{!∀ x, Decision (P x)} (l : list value) :
  head (filter P l) = snd <$> list_find P l.
Proof.
  induction l as [ | x l IH ]; [done | ].
  rewrite filter_cons. cbn [list_find]. case_decide; [done | ].
  rewrite IH. by destruct (list_find P l) as [[i y] | ].
Qed.

(** X8: on a list under a list type, the [getValue] of a list-find ref
    returns the first of the items that the list-filter ref over the same
    view returns, [undefined] when there is none, and evaluates the view on
    an initial part of the items that the list-filter ref evaluates it on. *)
Theorem list_find_getValue_head_of_filter
    (view : View) (name : string) (o : Options) (itemType : DataType)
    (l : list value) (renderOptions : value) :
  ∃ matches,
    result (getValue (Refs.ImmutableListFilterRef view) (ListOf name o itemType)
              (VList l) renderOptions) = Return (VList matches)
    ∧ result (getValue (Refs.ImmutableListFindRef view) (ListOf name o itemType)
                (VList l) renderOptions) = Return (default VUndefined (head matches))
    ∧ events (getValue (Refs.ImmutableListFindRef view) (ListOf name o itemType)
                (VList l) renderOptions)
      `prefix_of`
      events (getValue (Refs.ImmutableListFilterRef view) (ListOf name o itemType)
                (VList l) renderOptions).
Proof.
  rewrite list_filter_getValue_computes, list_find_getValue_computes.
  eexists. split; [done | ].
  rewrite head_filter_list_find.
  destruct (list_find _ l) as [[i x] | ]; cbn; split; try done.
  rewrite fmap_take. apply prefix_take.
Qed.

End ListReadProperties.

(** ** Writing, then reading or writing again, through a list-find ref *)

Section ListFindWriteProperties.
Context {View : Type}.
Variable valueRenderers_getValue : View → Refs.RenderData → value.

Local Abbreviation getValue := (Refs.getValue valueRenderers_getValue).
Local Abbreviation setValue := (Refs.setValue valueRenderers_getValue).
Local Abbreviation satisfies := (Spec.satisfies valueRenderers_getValue).

Lemma list_find_first_match (p : value → bool) (l : list value) (i : nat) (x : value) :
  list_find (λ x, p x = true) l = Some (i, x) → first_match p l (Some i).
Proof.
  intros (Hx & Hp & Hbefore)%list_find_Some. split; [ by exists x | ].
  intros j y Hj Hy. specialize (Hbefore j y Hy Hj). by destruct (p y).
Qed.

(** Where the new item is after the write, when it satisfies the predicate:
    it is the first match of the new list. *)
Lemma first_match_after_upsert
    (p : value → bool) (l : list value) (newItem : value) (found : option nat) :
  first_match p l found →
  p newItem = true →
  ∃ j, list_find (λ x, p x = true)
         (match found with Some i => <[i := newItem]> l | None => l ++ [newItem] end)
       = Some (j, newItem).
Proof.
  intros Hfound Hp. destruct found as [i | ]; simpl in Hfound.
  - destruct Hfound as [[x [Hx _]] Hbefore]. exists i.
    apply list_find_Some. split_and!; [ | done | ].
    + apply list_lookup_insert_eq. by eapply lookup_lt_Some.
    + intros j y Hy Hj. rewrite list_lookup_insert_ne in Hy by lia.
      rewrite (Hbefore j y Hj Hy). done.
  - exists (length l). apply list_find_Some. split_and!; [ | done | ].
    + by rewrite lookup_app_r, Nat.sub_diag.
    + intros j y Hy Hj. rewrite lookup_app_l in Hy by done.
      rewrite (Hfound y); [done | ]. by eapply list_elem_of_lookup_2.
Qed.

(** X10: when the new item satisfies the view, the [getValue] of a list-find
    ref on what its [setValue] returned is the new item. *)
Theorem list_find_write_then_read
    (view : View) (name : string) (o : Options) (itemType : DataType)
    (l : list value) (newItem renderOptions : value) :
  satisfies view itemType renderOptions newItem = true →
  ∃ l',
    result (setValue (Refs.ImmutableListFindRef view) (ListOf name o itemType)
              (VList l) newItem renderOptions) = Return (VList l')
    ∧ result (getValue (Refs.ImmutableListFindRef view) (ListOf name o itemType)
                (VList l') renderOptions) = Return newItem.
Proof.
  intros Hnew.
  destruct (first_match_total (satisfies view itemType renderOptions) l) as [found Hfound].
  rewrite (list_find_setValue_computes _ _ _ _ _ _ _ _ found Hfound).
  eexists. split; [done | ].
  destruct (first_match_after_upsert _ _ _ _ Hfound Hnew) as [j Hj].
  rewrite list_find_getValue_computes. by rewrite Hj.
Qed.

(** X11: writing the same item twice through a list-find ref.  When the item
    satisfies the view the second write changes nothing.  When neither it nor
    any item of the list satisfies the view, every write appends it once
    more. *)
Theorem list_find_write_twice
    (view : View) (name : string) (o : Options) (itemType : DataType)
    (l : list value) (newItem renderOptions : value) :
  (satisfies view itemType renderOptions newItem = true →
   ∃ l',
     result (setValue (Refs.ImmutableListFindRef view) (ListOf name o itemType)
               (VList l) newItem renderOptions) = Return (VList l')
     ∧ result (setValue (Refs.ImmutableListFindRef view) (ListOf name o itemType)
                 (VList l') newItem renderOptions) = Return (VList l'))
  ∧ (satisfies view itemType renderOptions newItem = false →
     first_match (satisfies view itemType renderOptions) l None →
     result (setValue (Refs.ImmutableListFindRef view) (ListOf name o itemType)
               (VList l) newItem renderOptions) = Return (VList (l ++ [newItem]))
     ∧ result (setValue (Refs.ImmutableListFindRef view) (ListOf name o itemType)
                 (VList (l ++ [newItem])) newItem renderOptions)
       = Return (VList (l ++ [newItem; newItem]))).
Proof.
  split.
  - intros Hnew.
    destruct (first_match_total (satisfies view itemType renderOptions) l)
      as [found Hfound].
    rewrite (list_find_setValue_computes _ _ _ _ _ _ _ _ found Hfound).
    eexists. split; [done | ].
    destruct (first_match_after_upsert _ _ _ _ Hfound Hnew) as [j Hj].
    rewrite (list_find_setValue_computes _ _ _ _ _ _ _ _ (Some j)
               (list_find_first_match _ _ _ _ Hj)).
    cbn. apply list_find_Some in Hj as (Hj & _ & _).
    by rewrite (list_insert_id _ _ _ Hj).
  - intros Hnew Hnone.
    assert (first_match (satisfies view itemType renderOptions) (l ++ [newItem]) None)
      as Hnone'.
    { simpl. intros x [Hx | ->%list_elem_of_singleton]%elem_of_app; [ | done ].
      by apply Hnone. }
    rewrite (list_find_setValue_computes _ _ _ _ _ _ _ _ None Hnone).
    rewrite (list_find_setValue_computes _ _ _ _ _ _ _ _ None Hnone').
    cbn. by rewrite <- app_assoc.
Qed.

End ListFindWriteProperties.

Lemma list_find_write_then_read_witness :
  ∃ l',
    result (Refs.setValue (equals (VStr "B")) (Refs.ImmutableListFindRef ()) items
              (VList [VStr "A"; VStr "C"]) (VStr "B") VUndefined) = Return (VList l')
    ∧ result (Refs.getValue (equals (VStr "B")) (Refs.ImmutableListFindRef ()) items
                (VList l') VUndefined) = Return (VStr "B").
Proof.
  apply (list_find_write_then_read (equals (VStr "B")) () "items" [] (Scalar "item" [])
           [VStr "A"; VStr "C"] (VStr "B") VUndefined).
  reflexivity.
Defined.

Lemma list_find_write_twice_witness :
  (∃ l',
     result (Refs.setValue (equals (VStr "B")) (Refs.ImmutableListFindRef ()) items
               (VList [VStr "A"; VStr "B"]) (VStr "B") VUndefined) = Return (VList l')
     ∧ result (Refs.setValue (equals (VStr "B")) (Refs.ImmutableListFindRef ()) items
                 (VList l') (VStr "B") VUndefined) = Return (VList l'))
  ∧ result (Refs.setValue (equals (VStr "Z")) (Refs.ImmutableListFindRef ()) items
              (VList [VStr "A"; VStr "N"]) (VStr "N") VUndefined)
    = Return (VList ([VStr "A"] ++ [VStr "N"; VStr "N"])).
Proof.
  split.
  - apply (list_find_write_twice (equals (VStr "B")) () "items" [] (Scalar "item" [])
             [VStr "A"; VStr "B"] (VStr "B") VUndefined).
    reflexivity.
  - apply (list_find_write_twice (equals (VStr "Z")) () "items" [] (Scalar "item" [])
             [VStr "A"] (VStr "N") VUndefined); [ reflexivity | ].
    intros x Hx. apply list_elem_of_singleton in Hx as ->. reflexivity.
Defined.

(** ** Direct-key writes *)

Lemma map_set_twice (m : Options) (k : string) (v1 v2 : value) :
  map_set (map_set m k v1) k v2 = map_set m k v2.
Proof.
  induction m as [ | [k' x] m IH ]; simpl.
  - by rewrite String.eqb_refl.
  - destruct (String.eqb k' k) eqn:E; simpl; rewrite E; [done | by rewrite IH].
Qed.

Lemma list_set_at_twice (l : list value) (i : nat) (v1 v2 : value) :
  list_set_at (list_set_at l i v1) i v2 = list_set_at l i v2.
Proof.
  unfold list_set_at. destruct (decide (i < length l)) as [Hi | Hi].
  - rewrite decide_True by (by rewrite length_insert).
    apply list_insert_insert_eq.
  - rewrite decide_True by (rewrite !length_app, length_replicate; simpl; lia).
    rewrite insert_app_r_alt by lia.
    rewrite insert_app_r_alt by (rewrite length_replicate; lia).
    rewrite length_replicate.
    by replace (i - length l - (i - length l)) with 0 by lia.
Qed.

Section DirectKeyWriteProperties.
Context {View : Type}.
Variable valueRenderers_getValue : View → Refs.RenderData → value.

Local Abbreviation getValue := (Refs.getValue valueRenderers_getValue).
Local Abbreviation setValue := (Refs.setValue valueRenderers_getValue).

(** X15: the last write wins.  Writing [v2] through a direct-key ref into
    what a write of [v1] through the same ref returned gives what writing
    [v2] alone gives, for every persistent container and non-empty key. *)
Theorem direct_key_last_write_wins
    (dataType : DataType) (renderOptions container : value) (key : string)
    (v1 v2 : value) :
  isImmutable container = true →
  key ≠ "" →
  ∃ root,
    setValue (Refs.ImmutableRef key) dataType container v1 renderOptions
    = ([], Return root)
    ∧ setValue (Refs.ImmutableRef key) dataType root v2 renderOptions
      = setValue (Refs.ImmutableRef key) dataType container v2 renderOptions.
Proof.
  intros Himm Hkey. apply nonempty_key_truthy in Hkey. simpl in Hkey |- *.
  unfold Refs.ImmutableRef_setValue.
  destruct container as [ | | | | | | | l | m | | m ]; try done; simpl; rewrite Hkey; simpl.
  - eexists. split; [done | ]. simpl.
    unfold list_set. destruct (wrapIndex key); [ | done ].
    by rewrite list_set_at_twice.
  - eexists. split; [done | ]. simpl.
    by rewrite map_set_twice.
Qed.

(** X14: a direct-key write is local.  On a persistent container the
    [setValue] of a direct-key ref with a non-empty key returns a new root,
    and the [getValue] of any other non-empty key in that root is what it
    was in the original. *)
Theorem direct_key_write_is_local
    (dataType : DataType) (renderOptions container : value) (key : string) (v : value) :
  isImmutable container = true →
  key ≠ "" →
  ∃ root,
    setValue (Refs.ImmutableRef key) dataType container v renderOptions
    = ([], Return root)
    ∧ ∀ key', key' ≠ "" → key' ≠ key →
        getValue (Refs.ImmutableRef key') dataType root renderOptions
        = getValue (Refs.ImmutableRef key') dataType container renderOptions.
Proof.
  intros Himm Hkey.
  assert (∃ root, setValue (Refs.ImmutableRef key) dataType container v renderOptions
                  = ([], Return root)) as [root Hroot].
  { pose proof (nonempty_key_truthy key Hkey) as Ht. simpl in Ht |- *.
    unfold Refs.ImmutableRef_setValue.
    destruct container; try done; simpl; rewrite Ht; simpl; by eexists. }
  exists root. split; [done | ].
  intros key' Hkey' Hne.
  by apply (direct_key_frame valueRenderers_getValue dataType renderOptions container
              key key' v root).
Qed.

End DirectKeyWriteProperties.

Lemma direct_key_write_is_local_witness :
  ∃ root,
    Refs.setValue no_view (Refs.ImmutableRef "name") (Scalar "model" [])
      (VMap [("name", VStr "a"); ("age", VNum 3)]) (VStr "b") VUndefined
    = ([], Return root)
    ∧ ∀ key', key' ≠ "" → key' ≠ "name" →
        Refs.getValue no_view (Refs.ImmutableRef key') (Scalar "model" []) root VUndefined
        = Refs.getValue no_view (Refs.ImmutableRef key') (Scalar "model" [])
            (VMap [("name", VStr "a"); ("age", VNum 3)]) VUndefined.
Proof.
  apply (direct_key_write_is_local no_view (Scalar "model" []) VUndefined
           (VMap [("name", VStr "a"); ("age", VNum 3)]) "name" (VStr "b"));
    [ reflexivity | discriminate ].
Defined.

Lemma direct_key_last_write_wins_witness :
  ∃ root,
    Refs.setValue no_view (Refs.ImmutableRef "name") (Scalar "model" [])
      (VMap [("name", VStr "a")]) (VStr "b") VUndefined
    = ([], Return root)
    ∧ Refs.setValue no_view (Refs.ImmutableRef "name") (Scalar "model" [])
        root (VStr "c") VUndefined
      = Refs.setValue no_view (Refs.ImmutableRef "name") (Scalar "model" [])
          (VMap [("name", VStr "a")]) (VStr "c") VUndefined.
Proof.
  apply (direct_key_last_write_wins no_view (Scalar "model" []) VUndefined
           (VMap [("name", VStr "a")]) "name" (VStr "b") (VStr "c"));
    [ reflexivity | discriminate ].
Defined.

(** ** Nothing is changed in place *)

Lemma in_place_free_ret {A} (a : A) : in_place_free (mret a : M A).
Proof. done. Qed.

Lemma in_place_free_throw {A} (e : exn) : in_place_free (throw e : M A).
Proof. done. Qed.

Lemma in_place_free_apply (item : value) : in_place_free (tell (ApplyView item)).
Proof. done. Qed.

Lemma in_place_free_warn (msg : string) : in_place_free (tell (Warn msg)).
Proof. done. Qed.






Create HintDb in_place_free.

#[local] Hint Resolve in_place_free_ret in_place_free_throw in_place_free_apply
  in_place_free_warn : in_place_free.


Section InPlace.
Context {View : Type}.
Variable valueRenderers_getValue : View → Refs.RenderData → value.

Local Abbreviation getValue := (Refs.getValue valueRenderers_getValue).
Local Abbreviation setValue := (Refs.setValue valueRenderers_getValue).


End InPlace.


(** ** The ref shorthand *)

Lemma append_cons (c : ascii) (a b : string) : String c a +:+ b = String c (a +:+ b).
Proof. reflexivity. Qed.

Lemma split_before_separator (a rest : string) :
  separator_free a →
  Shorthand.split "="%char (a +:+ String "="%char rest)
  = a :: Shorthand.split "="%char rest.
Proof.
  induction a as [ | c a IH ]; intros Ha.
  - change ("" +:+ String "="%char rest) with (String "="%char rest).
    cbn [Shorthand.split]. by rewrite Ascii.eqb_refl.
  - rewrite append_cons. cbn [Shorthand.split].
    destruct (Ascii.eqb c "="%char) eqn:E.
    + apply Ascii.eqb_eq in E. subst c. by destruct (Ha 0).
    + rewrite IH; [done | ]. intros i. apply (Ha (S i)).
Qed.

Lemma split_separator_free (a : string) :
  separator_free a → Shorthand.split "="%char a = [a].
Proof.
  induction a as [ | c a IH ]; intros Ha; [done | ].
  cbn [Shorthand.split].
  destruct (Ascii.eqb c "="%char) eqn:E.
  - apply Ascii.eqb_eq in E. subst c. by destruct (Ha 0).
  - rewrite IH; [done | ]. intros i. apply (Ha (S i)).
Qed.

Section ShorthandProperties.
Context {View : Type}.
Variable view_data : string → Refs.Ref View → View.
Variable view_value : value → View.
Variable view_condition : string → string → list View → View → View → View.
Variable view_named : string → View.

Local Abbreviation parseString :=
  (Shorthand.parseString view_data view_value view_condition view_named).
Local Abbreviation parseRef :=
  (Shorthand.parseRef view_data view_value view_condition view_named).

(** X17: the two spellings of a key.  The payload of [r:] is the key of the
    direct-key ref that is parsed, whatever it holds, nothing included (the
    identity ref); and a string whose second character is not the colon is
    itself the key. *)
Theorem shorthand_direct_key (key : string) :
  parseRef (Shorthand.FieldString ("r:" +:+ key)) = mret (Some (Refs.ImmutableRef key))
  ∧ (String.get 1 key ≠ Some ":"%char →
     parseRef (Shorthand.FieldString key) = mret (Some (Refs.ImmutableRef key))).
Proof.
  split.
  - cbn [Shorthand.parseRef]. rewrite !append_cons. simp parseString. done.
  - intros Hcolon. cbn [Shorthand.parseRef].
    destruct key as [ | c0 [ | c1 rest ] ]; simp parseString; try done.
    destruct (Ascii.eqb c1 ":"%char) eqn:E; simpl; [ | done ].
    apply Ascii.eqb_eq in E. subst c1. by destruct Hcolon.
Qed.

Lemma shorthand_pieces (code : ascii) (payload payload' : string) :
  Shorthand.split_ref payload = Shorthand.split_ref payload' →
  Shorthand.split_value payload = Shorthand.split_value payload' →
  code = "q"%char ∨ code = "f"%char →
  parseString (String code (String ":"%char payload))
  = parseString (String code (String ":"%char payload')).
Proof.
  intros Href Hvalue [-> | ->]; simp parseString; simpl;
    unfold Shorthand.truthy_view; by rewrite Href, Hvalue.
Qed.

(** X18: the find and filter shorthands read two pieces of their payload,
    the ref before the first [=] and the value between the first and the
    second; what follows a second [=] is dropped. *)
Theorem shorthand_drops_third_piece (ref value rest : string) :
  separator_free ref →
  separator_free value →
  parseString ("q:" +:+ ref +:+ "=" +:+ value +:+ "=" +:+ rest)
  = parseString ("q:" +:+ ref +:+ "=" +:+ value)
  ∧ parseString ("f:" +:+ ref +:+ "=" +:+ value +:+ "=" +:+ rest)
    = parseString ("f:" +:+ ref +:+ "=" +:+ value).
Proof.
  intros Href Hvalue.
  assert (Shorthand.split "="%char (ref +:+ "=" +:+ value +:+ "=" +:+ rest)
          = ref :: value :: Shorthand.split "="%char rest) as Hlong.
  { change (ref +:+ "=" +:+ value +:+ "=" +:+ rest)
      with (ref +:+ String "="%char (value +:+ String "="%char rest)).
    by rewrite !split_before_separator. }
  assert (Shorthand.split "="%char (ref +:+ "=" +:+ value) = [ref; value]) as Hshort.
  { change (ref +:+ "=" +:+ value) with (ref +:+ String "="%char value).
    by rewrite split_before_separator, split_separator_free. }
  assert (Shorthand.split_ref (ref +:+ "=" +:+ value +:+ "=" +:+ rest)
          = Shorthand.split_ref (ref +:+ "=" +:+ value)) as Hr.
  { unfold Shorthand.split_ref. by rewrite Hlong, Hshort. }
  assert (Shorthand.split_value (ref +:+ "=" +:+ value +:+ "=" +:+ rest)
          = Shorthand.split_value (ref +:+ "=" +:+ value)) as Hv.
  { unfold Shorthand.split_value. by rewrite Hlong, Hshort. }
  split.
  - apply (shorthand_pieces "q"%char _ _ Hr Hv). by left.
  - apply (shorthand_pieces "f"%char _ _ Hr Hv). by right.
Qed.

(** X19: the code of a shorthand decides the class of the ref, whatever the
    payload.  When the parse returns a ref, it is a list ref exactly for the
    codes [q], [f] and [m] and a multi ref exactly for [f] and [m]; any code
    other than [r], [q], [f], [m] and [v] is an error. *)
Theorem shorthand_code_decides_class (code : ascii) (payload : string) :
  (∀ r,
     result (parseString (String code (String ":"%char payload))) = Return r →
     Refs.isListRef r
     = (Ascii.eqb code "q"%char || Ascii.eqb code "f"%char || Ascii.eqb code "m"%char)
     ∧ Refs.isMultiRef r = (Ascii.eqb code "f"%char || Ascii.eqb code "m"%char))
  ∧ (code ≠ "r"%char → code ≠ "q"%char → code ≠ "f"%char → code ≠ "m"%char →
     code ≠ "v"%char →
     parseString (String code (String ":"%char payload))
     = throw (Error ("Invalid hacky ref type: " +:+ Shorthand.quote
                     +:+ String code (String ":"%char payload) +:+ Shorthand.quote))).
Proof.
  split.
  - intros r. simp parseString. simpl.
    destruct (Ascii.eqb code "r"%char) eqn:Er;
      [ apply Ascii.eqb_eq in Er; subst code; simpl; by intros [= <-] | ].
    destruct (Ascii.eqb code "q"%char) eqn:Eq;
      [ apply Ascii.eqb_eq in Eq; subst code;
        destruct (parseString _) as [log [r' | e]]; simpl; [ by intros [= <-] | done ] | ].
    destruct (Ascii.eqb code "f"%char) eqn:Ef;
      [ apply Ascii.eqb_eq in Ef; subst code;
        destruct (parseString _) as [log [r' | e]]; simpl; [ by intros [= <-] | done ] | ].
    destruct (Ascii.eqb code "m"%char) eqn:Em;
      [ apply Ascii.eqb_eq in Em; subst code;
        destruct (parseString _) as [log [r' | e]]; simpl; [ by intros [= <-] | done ] | ].
    destruct (Ascii.eqb code "v"%char) eqn:Ev; [ | done ].
    simpl. by intros [= <-].
  - intros Hr Hq Hf Hm Hv. simp parseString. simpl.
    apply Ascii.eqb_neq in Hr, Hq, Hf, Hm, Hv. by rewrite Hr, Hq, Hf, Hm, Hv.
Qed.

End ShorthandProperties.

Lemma shorthand_direct_key_witness :
  Shorthand.parseRef (λ _ _, 0) (λ _, 0) (λ _ _ _ _ _, 0) (λ _, 0)
    (Shorthand.FieldString "age")
  = mret (Some (Refs.ImmutableRef "age")).
Proof.
  apply (shorthand_direct_key (λ _ _, 0) (λ _, 0) (λ _ _ _ _ _, 0) (λ _, 0) "age").
  discriminate.
Defined.

Lemma shorthand_drops_third_piece_witness :
  Shorthand.parseString (λ _ _, 0) (λ _, 0) (λ _ _ _ _ _, 0) (λ _, 0)
    ("q:" +:+ "id" +:+ "=" +:+ "7" +:+ "=" +:+ "x")
  = Shorthand.parseString (λ _ _, 0) (λ _, 0) (λ _ _ _ _ _, 0) (λ _, 0)
      ("q:" +:+ "id" +:+ "=" +:+ "7").
Proof.
  apply (shorthand_drops_third_piece (λ _ _, 0) (λ _, 0) (λ _ _ _ _ _, 0) (λ _, 0)
           "id" "7" "x").
  - intros [ | [ | [ | i ] ] ]; discriminate.
  - intros [ | [ | i ] ]; discriminate.
Defined.

Lemma shorthand_code_decides_class_witness :
  (Refs.isListRef (Refs.ImmutableListFilterRef (View := nat) 0) = true
   ∧ Refs.isMultiRef (Refs.ImmutableListFilterRef (View := nat) 0) = true)
  ∧ Shorthand.parseString (λ _ _, 0) (λ _, 0) (λ _ _ _ _ _, 0) (λ _, 0) "x:id"
    = throw (Error ("Invalid hacky ref type: " +:+ Shorthand.quote
                    +:+ "x:id" +:+ Shorthand.quote)).
Proof.
  destruct (shorthand_code_decides_class (λ _ _, 0) (λ _, 0) (λ _ _ _ _ _, 0) (λ _, 0)
              "f"%char "id=7") as [Hclass _].
  destruct (shorthand_code_decides_class (λ _ _, 0) (λ _, 0) (λ _ _ _ _ _, 0) (λ _, 0)
              "x"%char "id") as [_ Herror].
  split; [ apply (Hclass (Refs.ImmutableListFilterRef 0)); reflexivity
         | apply Herror; discriminate ].
Defined.

(** ** Descent through a ref chain *)

Section DescentProperties.
Context {View : Type}.
Variable list_getField : DataType → list (Refs.Ref View) → value → M DataType.
Variable list_getFieldAndValue :
  DataType → value → list (Refs.Ref View) → value → M (DataType * value).
Variable list_setValue :
  DataType → value → list (Refs.Ref View) → value → value → M value.

Local Abbreviation getNextField := (Descent.getNextField list_getField).
Local Abbreviation getNextFieldAndValue :=
  (Descent.getNextFieldAndValue list_getFieldAndValue).
Local Abbreviation setNextValue := (Descent.setNextValue list_setValue).

(** X21: a scalar field ends the descent.  With refs left over, reading
    through it succeeds and ignores them, giving the field itself and the
    effective value of what was read, while writing through it throws; with
    no ref left, the field, the value read and the value written are
    returned as they are, whatever the field. *)
Theorem scalar_ends_descent
    (name : string) (o : Options) (refs : list (Refs.Ref View))
    (v oldValue newValue renderOptions : value) (field : option DataType) :
  (refs ≠ [] →
   getNextField (Some (Scalar name o)) refs renderOptions = mret (Some (Scalar name o))
   ∧ getNextFieldAndValue (Some (Scalar name o)) v refs renderOptions
     = mret (Some (Scalar name o), Types.getValue (Scalar name o) v)
   ∧ setNextValue (Some (Scalar name o)) oldValue newValue refs renderOptions
     = throw (Error (Descent.cannot_call_setValue (Scalar name o))))
  ∧ getNextField field [] renderOptions = mret field
  ∧ getNextFieldAndValue field v [] renderOptions = mret (field, v)
  ∧ setNextValue field oldValue newValue [] renderOptions = mret newValue.
Proof.
  split; [ | done ].
  intros Hrefs. destruct refs as [ | r refs ]; done.
Qed.

End DescentProperties.

Lemma scalar_ends_descent_witness :
  Descent.getNextFieldAndValue (View := unit) (λ t _ _ _, mret (t, VNull))
    (Some (Scalar "age" [("defaultValue", VNum 18)])) VUndefined
    [Refs.ImmutableRef "x"] VUndefined
  = mret (Some (Scalar "age" [("defaultValue", VNum 18)]), VNum 18)
  ∧ Descent.setNextValue (View := unit) (λ _ _ _ _ _, mret VNull)
      (Some (Scalar "age" [("defaultValue", VNum 18)])) VUndefined (VNum 1)
      [Refs.ImmutableRef "x"] VUndefined
    = throw (Error (Descent.cannot_call_setValue
                      (Scalar "age" [("defaultValue", VNum 18)]))).
Proof.
  destruct (scalar_ends_descent (View := unit) (λ t _ _, mret t)
              (λ t _ _ _, mret (t, VNull)) (λ _ _ _ _ _, mret VNull)
              "age" [("defaultValue", VNum 18)] [Refs.ImmutableRef "x"]
              VUndefined VUndefined (VNum 1) VUndefined None) as [Hrest _].
  destruct (Hrest ltac:(discriminate)) as (_ & Hread & Hwrite).
  split; [ exact Hread | exact Hwrite ].
Defined.

(** ** The options that validation reads *)

Section OptionProperties.
Variable same_object : value → value → bool.

Local Abbreviation hasValue := (Types.hasValue same_object).
Local Abbreviation validate := (Types.validate same_object).

(** X22: [validate] reads three options, [generated], [required] and
    [defaultValue].  Setting any other option ([unique], [excluded],
    [validationLinks], ...) to any value leaves what [validate] returns
    without a callback as it was: no error, or the same error about the
    instance validated. *)
Theorem validate_reads_three_options (this : DataType) (key : string) (f v : value) :
  key ≠ "generated" → key ≠ "required" → key ≠ "defaultValue" →
  validate (with_options this (map_set (options this) key f)) v None
  = about (with_options this (map_set (options this) key f)) <$> validate this v None.
Proof.
  intros Hg Hr Hd.
  assert (∀ k notSet, k ≠ key →
            map_get (options (with_options this (map_set (options this) key f))) k notSet
            = map_get (options this) k notSet) as Hget.
  { intros k notSet Hk. destruct this; simpl; by apply map_get_set_ne. }
  assert (getDefaultValue (with_options this (map_set (options this) key f)) VUndefined
          = getDefaultValue this VUndefined) as Hdefault.
  { unfold getDefaultValue. by rewrite Hget. }
  assert (isGenerated (with_options this (map_set (options this) key f))
          = isGenerated this) as Hgenerated.
  { unfold isGenerated. by rewrite Hget. }
  assert (isRequired (with_options this (map_set (options this) key f))
          = isRequired this) as Hrequired.
  { unfold isRequired. by rewrite Hget. }
  assert (∀ x b, hasValue (with_options this (map_set (options this) key f)) x b
                 = hasValue this x b) as Hhas.
  { intros x b. destruct this; simpl in *;
      unfold ImmutableDataType_hasValue, DataType_hasValue; by rewrite Hdefault. }
  assert (Types.getValue (with_options this (map_set (options this) key f)) v
          = Types.getValue this v) as Heff.
  { destruct this; simpl in *; unfold DataType_getValue;
      rewrite Hgenerated; unfold getDefaultValue; simpl; by rewrite Hget. }
  unfold Types.validate, Types.validate_exits.
  rewrite Heff, Hdefault, Hhas, Hgenerated, Hrequired.
  repeat match goal with |- context [if ?b then _ else _] => destruct b end; done.
Qed.

End OptionProperties.

Lemma validate_reads_three_options_witness :
  validate (λ _ _, false)
    (Scalar "email" [("required", VBool true); ("unique", VBool true)])
    VUndefined None
  = about (Scalar "email" [("required", VBool true); ("unique", VBool true)])
      <$> validate (λ _ _, false) (Scalar "email" [("required", VBool true)])
            VUndefined None.
Proof.
  apply (validate_reads_three_options (λ _ _, false)
           (Scalar "email" [("required", VBool true)])
           "unique" (VBool true) VUndefined); discriminate.
Defined.

(** ** What the list refs check, and what the list-filter ref writes *)

Section ListCheckProperties.
Context {View : Type}.
Variable valueRenderers_getValue : View → Refs.RenderData → value.

Local Abbreviation getValue := (Refs.getValue valueRenderers_getValue).
Local Abbreviation setValue := (Refs.setValue valueRenderers_getValue).
Local Abbreviation satisfies := (Spec.satisfies valueRenderers_getValue).

(** X13: what [checkValidData] checks is the value, not the type.  Whatever
    the data type, it passes every persistent container, and it throws on
    every other value (absent values and plain arrays included); the
    [getValue] of every list ref then throws the same error with nothing
    evaluated. *)
Theorem checkValidData_checks_the_value (dataType : DataType) (v renderOptions : value) :
  (isImmutable v = true → Refs.checkValidData dataType v = mret ())
  ∧ (isImmutable v = false →
     Refs.checkValidData dataType v
     = throw (Error "Cannot reference a non-list with a list ref")
     ∧ ∀ r : Refs.Ref View,
         Refs.isListRef r = true →
         getValue r dataType v renderOptions
         = ([], Throw (Error "Cannot reference a non-list with a list ref"))).
Proof.
  split.
  - by destruct v.
  - intros Hv. split.
    + unfold Refs.checkValidData. cbn [Refs.instanceof_list negb].
      by rewrite Hv, orb_true_r.
    + intros r Hr. by apply list_getValue_rejects_non_container.
Qed.

(** X12: what the [setValue] of a list-filter ref does on a list under a
    list type.  It warns when the new item is itself a list, evaluates the
    view once on every item from left to right, and returns a list of the
    same size in which a position holds the new item when its item satisfies
    the view, and its own index, a number, when it does not. *)
Theorem list_filter_setValue_writes
    (view : View) (name : string) (o : Options) (itemType : DataType)
    (l : list value) (newItem renderOptions : value) :
  ∃ l',
    setValue (Refs.ImmutableListFilterRef view) (ListOf name o itemType) (VList l)
      newItem renderOptions
    = ((if isList newItem then [Warn Refs.list_item_warning] else []) ++ (ApplyView <$> l),
       Return (VList l'))
    ∧ length l' = length l
    ∧ (∀ i x, l !! i = Some x → satisfies view itemType renderOptions x = true →
              l' !! i = Some newItem)
    ∧ (∀ i x, l !! i = Some x → satisfies view itemType renderOptions x = false →
              l' !! i = Some (VNum (Z.of_nat i))).
Proof.
  rewrite list_filter_setValue_computes. eexists. split; [done | ].
  split; [ apply length_imap | ].
  split; intros i x Hx Hp; rewrite list_lookup_imap, Hx; simpl; by rewrite Hp.
Qed.

End ListCheckProperties.

Lemma checkValidData_checks_the_value_witness :
  Refs.checkValidData (Scalar "title" []) (VMap []) = mret ()
  ∧ Refs.getValue (equals (VStr "A")) (Refs.ImmutableListFilterRef ()) items
      (VArray [VStr "A"]) VUndefined
    = ([], Throw (Error "Cannot reference a non-list with a list ref")).
Proof.
  destruct (checkValidData_checks_the_value (equals (VStr "A")) (Scalar "title" [])
              (VMap []) VUndefined) as [Hpass _].
  destruct (checkValidData_checks_the_value (equals (VStr "A")) items
              (VArray [VStr "A"]) VUndefined) as [_ Hfail].
  split; [ apply Hpass; reflexivity | ].
  apply (proj2 (Hfail eq_refl) (Refs.ImmutableListFilterRef ())). reflexivity.
Defined.

Lemma list_filter_setValue_writes_witness :
  ∃ l',
    Refs.setValue (equals (VStr "A")) (Refs.ImmutableListFilterRef ()) items
      (VList [VStr "A"; VStr "B"]) (VStr "N") VUndefined
    = (ApplyView <$> [VStr "A"; VStr "B"], Return (VList l'))
    ∧ l' !! 0 = Some (VStr "N")
    ∧ l' !! 1 = Some (VNum 1).
Proof.
  destruct (list_filter_setValue_writes (equals (VStr "A")) () "items" []
              (Scalar "item" []) [VStr "A"; VStr "B"] (VStr "N") VUndefined)
    as (l' & Hresult & _ & Hmatch & Hother).
  exists l'. split; [ exact Hresult | ].
  split; [ apply (Hmatch 0 (VStr "A")); reflexivity
         | apply (Hother 1 (VStr "B")); reflexivity ].
Defined.
